(** * Event-window price resolution, forward returns and ZQ surprise

    A shallow embedding of the deterministic core of the FOMC emotion /
    futures-return pipeline:

    - [regressions/run_horizon_sweep.py]: [build_price_cache],
      [add_forward_returns], [winsorize];
    - [regressions/build_zq_surprise.py]: [zq_symbol_for_meeting],
      [zq_next_month_symbol], [read_ticks], [last_price_in_window],
      [compute_for_meeting];
    - [regressions/run_clip_level_regression.py] and
      [regressions/run_per_emotion_regressions.py]: [winsorize];
    - [regressions/run_reg_with_zq.py]: [winsor]; the emotion indicators of
      the regression scripts; the loop of [main] of build_zq_surprise.py;
    - [aux scripts for data/zq_downloader.py] and
      [aux scripts for data/pull_meeting_ticks_to_s3.py]: [s3_key].

    Conventions.  Integers (epoch seconds, nanosecond timestamps, calendar
    fields) are [Z].  A float64 price is an exact rational [Q]; a float64
    that is NaN is [None].  The winsorisation code needs a square root, so
    its columns hold real numbers [R].  A pandas frame is the list of its
    rows in row order; a dict is a [gmap]. *)

From Stdlib Require Import ZArith QArith Qabs Reals Lra Lia Bool Ascii String DecimalString.
From stdpp Require Import base option list strings gmap sorting.

Local Open Scope Z_scope.

(** ** The pandas operations the scripts call *)

Module Pandas.

(** A two-column frame, or a Series with an integer index: the rows
    [(label, value)] in row order. *)
Abbreviation Series V := (list (Z * V)).

Section Ops.
Context {V : Type}.

(** [DataFrame.drop_duplicates(col)] with the default [keep="first"]:
    walks the rows in order and keeps a row when its label has not been
    seen yet. *)
Fixpoint drop_duplicates_seen (seen : gset Z) (rows : Series V) : Series V :=
  match rows with
  | [] => []
  | r :: rest =>
      if decide (r.1 ∈ seen) then drop_duplicates_seen seen rest
      else r :: drop_duplicates_seen ({[ r.1 ]} ∪ seen) rest
  end.

Definition drop_duplicates (rows : Series V) : Series V :=
  drop_duplicates_seen ∅ rows.

(** [sort_values(col)] / [sort_index()]: ascending by label.  Rows with
    equal labels keep their relative order. *)
Fixpoint insert_row (r : Z * V) (sorted : Series V) : Series V :=
  match sorted with
  | [] => [r]
  | r' :: rest =>
      if r.1 <=? r'.1 then r :: r' :: rest else r' :: insert_row r rest
  end.

Definition sort_values (rows : Series V) : Series V :=
  foldr insert_row [] rows.

(** [series.loc[:t]] on a monotonic increasing index: the leading rows
    whose label is at most [t] (label slices are inclusive). *)
Fixpoint loc_upto (t : Z) (s : Series V) : Series V :=
  match s with
  | [] => []
  | r :: rest => if r.1 <=? t then r :: loc_upto t rest else []
  end.

(** [series.loc[(index >= a) & (index <= b)]]: a boolean mask. *)
Definition loc_between (a b : Z) (s : Series V) : Series V :=
  List.filter (fun r => (a <=? r.1) && (r.1 <=? b)) s.

(** [series.iloc[-1]]; [None] stands for the IndexError on an empty
    series. *)
Definition iloc_last (s : Series V) : option V := snd <$> last s.

Definition index (s : Series V) : list Z := fst <$> s.

(** A series is ordered when its labels increase strictly (the index is
    unique and monotonic increasing). *)
Definition ordered (s : Series V) : Prop := StronglySorted Z.lt (index s).

(** Rows compared by label. *)
Definition key_le (r r' : Z * V) : Prop := r.1 <= r'.1.
End Ops.

(** *** float64 columns

    A column of floats: [None] is NaN. *)
Abbreviation column := (list (option R)).

(** The cells that are not NaN ([skipna=True]). *)
Definition dropna (s : column) : list R := omap (M := list) (fun c : option R => c) s.

Definition Rsum (xs : list R) : R := foldr Rplus 0%R xs.

Definition mean (xs : list R) : R := (Rsum xs / INR (length xs))%R.

(** Sum of squared deviations from the mean. *)
Definition sq_dev (xs : list R) : R :=
  Rsum ((fun x => ((x - mean xs) * (x - mean xs))%R) <$> xs).

(** [Series.std(skipna=True, ddof=0)], the population standard deviation;
    it is NaN on a column without a value. *)
Definition std_pop (s : column) : option R :=
  match dropna s with
  | [] => None
  | xs => Some (sqrt (sq_dev xs / INR (length xs)))
  end.

(** [Series.clip(lower, upper)] with scalar bounds: a NaN bound is no
    bound, two bounds given in the wrong order are swapped, NaN cells
    stay NaN. *)
Definition clip_cell (lower upper : option R) (x : R) : R :=
  let x := match lower with Some l => Rmax x l | None => x end in
  match upper with Some u => Rmin x u | None => x end.

(** What [clip(-c, c)] does to a cell. *)
Definition cap_at (c x : R) : R := Rmin (Rmax x (- c)) c.

Definition clip (lower upper : option R) (s : column) : column :=
  let '(lower, upper) :=
    match lower, upper with
    | Some l, Some u => (Some (Rmin l u), Some (Rmax l u))
    | _, _ => (lower, upper)
    end in
  (fun c : option R => clip_cell lower upper <$> c) <$> s.

End Pandas.

(** ** Ticks *)

(** One trade: [ts_event] in nanoseconds since the epoch (the int64 view of
    a [datetime64[ns]]), the contract symbol and the traded price. *)
Record Tick : Type := mkTick {
  ts_event : Z;
  symbol   : string;
  price    : Q
}.

(** Relations on optional prices, up to equality of rationals. *)
Definition oQeq (a b : option Q) : Prop :=
  match a, b with
  | Some x, Some y => (x == y)%Q
  | None, None => True
  | _, _ => False
  end.

(** ** run_horizon_sweep.py *)

Module HorizonSweep.
Import Pandas.

Definition ASSETS : list string := ["ES"; "ZT"]%string.

(** [sorted(set(meeting_ids))]. *)
Fixpoint insert_str (x : string) (l : list string) : list string :=
  match l with
  | [] => [x]
  | y :: rest => if String.leb x y then x :: y :: rest else y :: insert_str x rest
  end.

Definition sorted_set (ids : list string) : list string :=
  foldr insert_str [] (remove_dups ids).

(** Lines 66-72 of [build_price_cache]: the per-second series of one tick
    file.  [sec] is the floor of the nanosecond timestamp divided by 1e9,
    ES prices are divided by 100, then
    [drop_duplicates("sec").sort_values("sec").set_index("sec")["price"]]. *)
Definition tick_series (sym : string) (ticks : list Tick) : Series Q :=
  let sec := (fun tk => ts_event tk / 1000000000) <$> ticks in
  let price :=
    (fun tk => if String.eqb sym "ES" then (price tk / 100)%Q else price tk) <$> ticks in
  sort_values (drop_duplicates (zip sec price)).

(** The cache: a dict from (meeting id, asset) to the per-second series. *)
Abbreviation cache_t := (gmap (string * string) (list (Z * Q))).

Section Cache.
(** [glob_first] followed by [pd.read_parquet]: the tick file stored for
    an asset and a meeting day, if there is one.  A file is a table with
    the columns [ts_event] and [price], so the test for missing columns
    always passes. *)
Variable tick_file : string -> string -> option (list Tick).

(** The inner loop of [build_price_cache], over the meetings. *)
Fixpoint cache_meetings (sym : string) (mtgs : list string) (cache : cache_t)
  : cache_t :=
  match mtgs with
  | [] => cache
  | mtg :: rest =>
      match tick_file sym mtg with
      | None => cache_meetings sym rest cache
      | Some ticks =>
          cache_meetings sym rest (<[ (mtg, sym) := tick_series sym ticks ]> cache)
      end
  end.

(** The outer loop, over the assets. *)
Fixpoint cache_assets (syms : list string) (mtgs : list string) (cache : cache_t)
  : cache_t :=
  match syms with
  | [] => cache
  | sym :: rest => cache_assets rest mtgs (cache_meetings sym mtgs cache)
  end.

Definition build_price_cache (meeting_ids : list string) : cache_t :=
  cache_assets ASSETS (sorted_set meeting_ids) ∅.
End Cache.

(** A row of the returns table, as far as [add_forward_returns] reads it;
    [timestamp_utc] is [None] when the cell is NaN. *)
Record ReturnRow : Type := mkRow {
  meeting_id    : string;
  segment_id    : Z;
  sym           : string;
  timestamp_utc : option Z;
  pre_px_60     : Q
}.

(** [sec_of] on an integer cell. *)
Definition sec_of (x : Z) : Z := x.

(** The as-of lookup [series.loc[:t].iloc[-1]]. *)
Definition asof (series : Series Q) (t : Z) : option Q :=
  iloc_last (loc_upto t series).

(** The body of the row loop of [add_forward_returns] for one horizon:
    the value left in [out[i]], [None] where it stays NaN. *)
Definition forward_delta (price_cache : cache_t) (r : ReturnRow) (h : Z)
  : option Q :=
  match price_cache !! (meeting_id r, sym r), timestamp_utc r with
  | Some series, Some ts =>
      let t0 := sec_of ts in
      match asof series t0 with
      | None => None
      | Some p0 =>
          let p1 := match asof series (t0 + h) with
                    | Some p => p
                    | None => p0
                    end in
          Some (p1 - p0)%Q
      end
  | _, _ => None
  end.

(** [add_forward_returns]: one column [d_px_h] per horizon, each with one
    cell per row of [df].  The frame has the default index 0, 1, ..., so
    [out[i]] is the cell of the row at position [i]. *)
Definition add_forward_returns (df : list ReturnRow) (price_cache : cache_t)
    (horizons : list Z) : list (Z * list (option Q)) :=
  (fun h => (h, (fun r => forward_delta price_cache r h) <$> df)) <$> horizons.

Definition HORIZONS : list Z := (fun k => 25 * Z.of_nat k) <$> seq 0 13.

(** [winsorize]: the column is already float64, the standard deviation
    skips NaN and divides by n ([ddof=0]); there is no test on [sigma]. *)
Definition winsorize (s : column) (sigma : R) : column :=
  let std := std_pop s in
  let cap := Rmult sigma <$> std in
  clip (Ropp <$> cap) cap s.

Definition WINSOR_SIGMA : R := 3%R.

End HorizonSweep.

(** ** run_clip_level_regression.py *)

Module ClipLevel.
Import Pandas.

(** [winsorize]: the column is numeric here, so the test is [if sigma]. *)
Definition winsorize (s : column) (sigma : R) : column :=
  if Req_dec_T sigma 0 then s
  else
    let cap := Rmult sigma <$> std_pop s in
    clip (Ropp <$> cap) cap s.

End ClipLevel.

(** ** run_per_emotion_regressions.py *)

Module PerEmotion.
Import Pandas.

(** [winsorize]: [if not sigma: return s]. *)
Definition winsorize (s : column) (sigma : R) : column :=
  if Req_dec_T sigma 0 then s
  else
    let cap := Rmult sigma <$> std_pop s in
    clip (Ropp <$> cap) cap s.

End PerEmotion.

(** ** build_zq_surprise.py *)

(** A [datetime.date]: proleptic Gregorian year, month and day. *)
Record date : Type := mkDate {
  year  : Z;
  month : Z;
  day   : Z
}.

Module Calendar.

(** [calendar.isleap]. *)
Definition isleap (y : Z) : bool :=
  (y mod 4 =? 0) && (negb (y mod 100 =? 0) || (y mod 400 =? 0)).

(** [calendar.mdays], from index 1. *)
Definition mdays : list Z := [31; 28; 31; 30; 31; 30; 31; 31; 30; 31; 30; 31].

(** [calendar.monthrange(y, m)[1]], the number of days of the month;
    [None] stands for IllegalMonthError. *)
Definition monthrange_days (y m : Z) : option Z :=
  if (1 <=? m) && (m <=? 12) then
    n ← mdays !! Z.to_nat (m - 1);
    Some (n + (if (m =? 2) && isleap y then 1 else 0))
  else None.

(** The dates a [datetime.date] can hold. *)
Definition valid_date (d : date) : Prop :=
  1 <= year d <= 9999 /\ 1 <= month d <= 12 /\
  exists n, monthrange_days (year d) (month d) = Some n /\ 1 <= day d <= n.

End Calendar.

Module ZqSurprise.
Import Pandas Calendar.

(** Event window, in seconds. *)
Definition PRE_SEC  : Z := 10 * 60.
Definition POST_SEC : Z := 10 * 60.

Definition MONTH_CODE : gmap Z string :=
  list_to_map
    [(1, "F"); (2, "G"); (3, "H"); (4, "J"); (5, "K"); (6, "M");
     (7, "N"); (8, "Q"); (9, "U"); (10, "V"); (11, "X"); (12, "Z")]%string.

(** [f"{n}"] for an integer. *)
Definition str_of_int (n : Z) : string := NilZero.string_of_int (Z.to_int n).

(** Meeting-month symbol (primary); [None] stands for the KeyError of the
    table lookup. *)
Definition zq_symbol_for_meeting (meeting_date : date) : option string :=
  let m := month meeting_date in
  let y := year meeting_date mod 10 in
  code ← MONTH_CODE !! m;
  Some ("ZQ" +:+ code +:+ str_of_int y).

(** Next month symbol (fallback). *)
Definition zq_next_month_symbol (meeting_date : date) : option string :=
  let y := year meeting_date in
  let m := month meeting_date + 1 in
  let '(m, y) := if m =? 13 then (1, y + 1) else (m, y) in
  code ← MONTH_CODE !! m;
  Some ("ZQ" +:+ code +:+ str_of_int (y mod 10)).

Definition is_upper (c : ascii) : bool :=
  let n := nat_of_ascii c in (65 <=? n)%nat && (n <=? 90)%nat.

Definition is_digit (c : ascii) : bool :=
  let n := nat_of_ascii c in (48 <=? n)%nat && (n <=? 57)%nat.

(** [re.match(r"^ZQ[A-Z]\d$", s)] on ASCII text; [$] also matches just
    before a final newline. *)
Definition match_zq_single_leg (s : string) : bool :=
  match s with
  | String z (String q (String c (String d rest))) =>
      Ascii.eqb z "Z" && Ascii.eqb q "Q" && is_upper c && is_digit d
      && (String.eqb rest "" || String.eqb rest (String "010" ""))
  | _ => false
  end.

(** [df.sort_values("ts_event")]. *)
Definition sort_by_ts_event (df : list Tick) : list Tick :=
  snd <$> sort_values ((fun tk => (ts_event tk, tk)) <$> df).

(** [read_ticks], from the rows of the day's parquet file on: keep the
    single-leg monthly contracts, then sort by event time. *)
Definition read_ticks (raw : list Tick) : list Tick :=
  sort_by_ts_event (List.filter (fun tk => match_zq_single_leg (symbol tk)) raw).

(** Return the last observed price in [[start_ts, end_ts]]. *)
Definition last_price_in_window (series : Series Q) (start_ts end_ts : Z)
  : option Q :=
  iloc_last (loc_between start_ts end_ts series).

Record SurpriseRecord : Type := mkSurprise {
  meeting_id      : string;
  t0_utc          : Z;
  primary_symbol  : string;
  fallback_symbol : string;
  symbol_used     : option string;
  price_pre       : option Q;
  price_post      : option Q;
  implied_pre     : option Q;
  implied_post    : option Q;
  delta_implied_bps : option Q;
  days_in_month   : Z;
  days_remaining_after_announcement : Z;
  scaling_factor  : option Q;
  target_surprise_bps : option Q;
  notes           : string
}.

Definition NO_TRADES_NOTE : string :=
  "no trades for meeting-month or next-month symbol in event window".

Definition seconds (s : Z) : Z := s * 1000000000.
Definition milliseconds (ms : Z) : Z := ms * 1000000.

(** One pass of the loop [for sym_try in (pri_sym, alt_sym)]: the pre and
    post prices of one candidate symbol, when it has both. *)
Definition try_symbol (df_day : list Tick) (t0 : Z) (sym_try : string)
  : option (string * Q * Q) :=
  let sub := List.filter (fun tk => String.eqb (symbol tk) sym_try) df_day in
  match sub with
  | [] => None
  | _ :: _ =>
      let sub := sort_values ((fun tk => (ts_event tk, price tk)) <$> sub) in
      let p_pre := last_price_in_window sub (t0 - seconds PRE_SEC) (t0 - milliseconds 1) in
      let p_post := last_price_in_window sub t0 (t0 + seconds POST_SEC) in
      match p_pre, p_post with
      | Some p_pre, Some p_post => Some (sym_try, p_pre, p_post)
      | _, _ => None
      end
  end.

(** The loop itself: the first candidate that yields a record wins. *)
Fixpoint first_symbol (df_day : list Tick) (t0 : Z) (candidates : list string)
  : option (string * Q * Q) :=
  match candidates with
  | [] => None
  | sym_try :: rest =>
      match try_symbol df_day t0 sym_try with
      | Some rec => Some rec
      | None => first_symbol df_day t0 rest
      end
  end.

(** Lines 110-173 of [compute_for_meeting]: the record, from the anchor,
    the two candidate symbols, the number of days [D] of the month, the day
    [d] of the meeting and the outcome [rec] of the loop over the
    candidates. *)
Definition fill_record (day_iso : string) (t0 : Z) (pri_sym alt_sym : string)
    (D d : Z) (rec : option (string * Q * Q)) : SurpriseRecord :=
  let rem := D - d + 1 in
  let sf := if 0 <? rem then Some (inject_Z D / inject_Z rem)%Q else None in
  match rec with
  | None =>
      {| meeting_id := day_iso; t0_utc := t0;
         primary_symbol := pri_sym; fallback_symbol := alt_sym;
         symbol_used := None;
         price_pre := None; price_post := None;
         implied_pre := None; implied_post := None;
         delta_implied_bps := None;
         days_in_month := D;
         days_remaining_after_announcement := rem;
         scaling_factor := sf;
         target_surprise_bps := None;
         notes := NO_TRADES_NOTE |}
  | Some (sym_used, p_pre, p_post) =>
      let imp_pre := (100 - p_pre)%Q in
      let imp_post := (100 - p_post)%Q in
      let delta_bps := ((imp_post - imp_pre) * 100)%Q in
      {| meeting_id := day_iso; t0_utc := t0;
         primary_symbol := pri_sym; fallback_symbol := alt_sym;
         symbol_used := Some sym_used;
         price_pre := Some p_pre; price_post := Some p_post;
         implied_pre := Some imp_pre; implied_post := Some imp_post;
         delta_implied_bps := Some delta_bps;
         days_in_month := D;
         days_remaining_after_announcement := rem;
         scaling_factor := sf;
         target_surprise_bps := (fun f => (delta_bps * f)%Q) <$> sf;
         notes := "" |}
  end.

Section Meeting.
(** [datetime.strptime(s, "%Y-%m-%d").date()]; [None] stands for
    ValueError. *)
Variable strptime_ymd : string -> option date.
(** 14:30 US/Eastern on a date as a UTC instant, in nanoseconds since
    the epoch (the time-zone database of dateutil). *)
Variable eastern_1430_utc : date -> Z.

(** Return event time (14:30 ET) as UTC. *)
Definition t0_utc_on_meeting_day (meeting_date_str : string) : option Z :=
  eastern_1430_utc <$> strptime_ymd meeting_date_str.

(** Compute surprise record for a meeting day given full-day ticks;
    [None] stands for an exception leaving the function. *)
Definition compute_for_meeting (day_iso : string) (df_day : list Tick)
  : option SurpriseRecord :=
  t0 ← t0_utc_on_meeting_day day_iso;
  meeting_dt ← strptime_ymd day_iso;
  pri_sym ← zq_symbol_for_meeting meeting_dt;
  alt_sym ← zq_next_month_symbol meeting_dt;
  D ← monthrange_days (year meeting_dt) (month meeting_dt);
  Some (fill_record day_iso t0 pri_sym alt_sym D (day meeting_dt)
          (first_symbol df_day t0 [pri_sym; alt_sym])).
End Meeting.

End ZqSurprise.

(** ** run_reg_with_zq.py *)

Module RegWithZq.
Import Pandas.

Definition W_SIGMA : R := 3%R.

(** [Series.std(skipna=True)] with the default [ddof=1], the sample
    standard deviation; it is NaN on a column with fewer than two values. *)
Definition std_sample (s : column) : option R :=
  match dropna s with
  | [] => None
  | [_] => None
  | xs => Some (sqrt (sq_dev xs / (INR (length xs) - 1)))
  end.

(** [winsor]. *)
Definition winsor (s : column) (sigma : R) : column :=
  let cap := Rmult sigma <$> std_sample s in
  clip (Ropp <$> cap) cap s.

End RegWithZq.

(** ** Emotion indicators *)

Module Emotion.







End Emotion.

(** ** Object keys of the tick files *)

Module Keys.

Definition BUCKET : string := "fomcthesiss3".
Definition PREFIX : string := "market-data/es_ticks".
Definition SCHEMA : string := "trades".

(** [sym.split(".")[0]]: the text before the first dot. *)
Fixpoint before_dot (sym : string) : string :=
  match sym with
  | EmptyString => EmptyString
  | String c rest => if Ascii.eqb c "." then EmptyString else String c (before_dot rest)
  end.

(** [s3_key(sym, day)] of pull_meeting_ticks_to_s3.py. *)
Definition pull_s3_key (sym day : string) : string :=
  let root := before_dot sym in
  let fname := day +:+ "_" +:+ root +:+ "_" +:+ SCHEMA +:+ ".parquet" in
  PREFIX +:+ "/" +:+ root +:+ "/date=" +:+ day +:+ "/" +:+ fname.

(** [s3_key(day)] of zq_downloader.py. *)
Definition zq_s3_key (day : string) : string :=
  let root := "ZQ"%string in
  let fname := day +:+ "_" +:+ root +:+ "_" +:+ SCHEMA +:+ ".parquet" in
  PREFIX +:+ "/" +:+ root +:+ "/date=" +:+ day +:+ "/" +:+ fname.

(** [f"s3://{BUCKET}/{key}"], the place both download scripts write to. *)
Definition s3_uri (key : string) : string := "s3://" +:+ BUCKET +:+ "/" +:+ key.

(** [S3_PATH_TMPL.format(d=day)] and the path [read_ticks] of
    build_zq_surprise.py reads. *)
Definition S3_PATH_TMPL (d : string) : string :=
  "market-data/es_ticks/ZQ/date=" +:+ d +:+ "/" +:+ d +:+ "_ZQ_trades.parquet".

Definition read_ticks_path (day_iso : string) : string :=
  ("s3://" +:+ BUCKET +:+ "/") +:+ S3_PATH_TMPL day_iso.

(** [TICK_ROOT] of run_horizon_sweep.py and the folder of an asset and a
    meeting, the part of the glob before [/*.parquet]. *)
Definition TICK_ROOT : string := "s3://" +:+ BUCKET +:+ "/market-data/es_ticks".

Definition tick_folder (sym mtg : string) : string :=
  TICK_ROOT +:+ "/" +:+ sym +:+ "/date=" +:+ mtg.

End Keys.

(** ** The batch of build_zq_surprise.py *)

Module ZqBatch.
Import Pandas Calendar ZqSurprise.

Section Main.
Variable strptime_ymd : string -> option date.
Variable eastern_1430_utc : date -> Z.
(** [pd.read_parquet] of the day's file, [None] when it raises (the file
    is missing or cannot be read). *)
Variable zq_file : string -> option (list Tick).

(** The loop of [main] over the meeting days: a day whose file cannot be
    read is skipped; [None] stands for an exception leaving
    [compute_for_meeting], which ends the run. *)
Fixpoint meeting_rows (days : list string) : option (list SurpriseRecord) :=
  match days with
  | [] => Some []
  | day :: rest =>
      match zq_file day with
      | None => meeting_rows rest
      | Some raw =>
          rec ← compute_for_meeting strptime_ymd eastern_1430_utc day (read_ticks raw);
          rows ← meeting_rows rest;
          Some (rec :: rows)
      end
  end.

(** [main], from the [meeting_date] column of the map on:
    [sorted(m["meeting_date"].dropna().unique().tolist())], then the loop. *)
Definition main (meeting_date : list (option string)) : option (list SurpriseRecord) :=
  meeting_rows
    (HorizonSweep.sorted_set (omap (M := list) (fun c : option string => c) meeting_date)).
End Main.

End ZqBatch.

(** ** Vocabulary of the specification *)

Module Spec.
Import Calendar.

(** The single-leg monthly-contract pattern [^<ROOT>[A-Z]\d$] for an
    instrument root. *)
Fixpoint strip_prefix (p s : string) : option string :=
  match p, s with
  | EmptyString, _ => Some s
  | String a p', String b s' => if Ascii.eqb a b then strip_prefix p' s' else None
  | String _ _, EmptyString => None
  end.

Definition single_leg (root s : string) : bool :=
  match strip_prefix root s with
  | Some (String c (String d rest)) =>
      ZqSurprise.is_upper c && ZqSurprise.is_digit d
      && (String.eqb rest "" || String.eqb rest (String "010" ""))
  | _ => false
  end.

(** "date + 1 month": the same day in the following month, December rolling
    over to January of the next year, the day clamped to the length of the
    target month (31 January + 1 month is the last day of February). *)
Definition date_plus_one_month (d : date) : date :=
  let '(y, m) := if month d =? 12 then (year d + 1, 1) else (year d, month d + 1) in
  let n := default (day d) (monthrange_days y m) in
  {| year := y; month := m; day := Z.min (day d) n |}.

(** The last trade of one contract in the pre-event window
    [[t0 - 10 min, t0 - 1 ms]] and in the post-event window
    [[t0, t0 + 10 min]]. *)
Definition symbol_series (df_day : list Tick) (sym : string) : list (Z * Q) :=
  Pandas.sort_values
    ((fun tk => (ts_event tk, price tk))
       <$> List.filter (fun tk => String.eqb (symbol tk) sym) df_day).

Definition pre_price (df_day : list Tick) (t0 : Z) (sym : string) : option Q :=
  ZqSurprise.last_price_in_window (symbol_series df_day sym)
    (t0 - ZqSurprise.seconds ZqSurprise.PRE_SEC) (t0 - ZqSurprise.milliseconds 1).

Definition post_price (df_day : list Tick) (t0 : Z) (sym : string) : option Q :=
  ZqSurprise.last_price_in_window (symbol_series df_day sym)
    t0 (t0 + ZqSurprise.seconds ZqSurprise.POST_SEC).

(** A candidate contract succeeds when it has both prices. *)
Definition has_both (df_day : list Tick) (t0 : Z) (sym : string) : bool :=
  bool_decide (is_Some (pre_price df_day t0 sym))
  && bool_decide (is_Some (post_price df_day t0 sym)).

End Spec.

(** ** Concrete inputs *)

Module Scenario.

(** Two ZT trades in chronological order within the epoch second 1. *)
Definition zt_same_second : list Tick :=
  [ mkTick 1000000000 "ZTZ3" 100; mkTick 1500000000 "ZTZ3" 101 ].

(** An ES file holding an outright trade and a calendar-spread trade. *)
Definition es_with_spread : list Tick :=
  [ mkTick 1000000000 "ESZ3" 4500; mkTick 2000000000 "ESZ3-ESH4" 55.25 ].

(** The tick store: only the meeting day 2023-11-01 has files. *)
Definition tick_store (sym mtg : string) : option (list Tick) :=
  if String.eqb mtg "2023-11-01" then
    if String.eqb sym "ES" then Some es_with_spread
    else if String.eqb sym "ZT" then Some zt_same_second
    else None
  else None.

(** The series of the end-to-end scenario: 100.00 at 14:19:59, 99.98 at
    14:30:00 and 99.95 at 14:40:01, as seconds of the day. *)
Definition t_1430 : Z := 14 * 3600 + 30 * 60.

Definition day_series : list (Z * Q) :=
  [ (t_1430 - 601, 100.00%Q); (t_1430, 99.98%Q); (t_1430 + 601, 99.95%Q) ].

Definition day_cache : HorizonSweep.cache_t :=
  {[ ("2023-11-01", "ZT")%string := day_series ]}.

Definition day_row : HorizonSweep.ReturnRow :=
  HorizonSweep.mkRow "2023-11-01" 0 "ZT" (Some t_1430) 99.98.

(** The meeting of 2023-11-01: 14:30 Eastern (EDT) is 18:30 UTC, epoch
    second 1698863400.  The two library calls are tabulated on that day. *)
Definition nov_2023 : date := {| year := 2023; month := 11; day := 1 |}.

Definition strptime_ymd (s : string) : option date :=
  if String.eqb s "2023-11-01" then Some nov_2023 else None.

Definition eastern_1430_utc (_ : date) : Z := 1698863400 * 1000000000.

Definition t0_nov : Z := eastern_1430_utc nov_2023.

(** Trades in both windows for ZQZ3 only. *)
Definition zq_fallback_day : list Tick :=
  [ mkTick (t0_nov - 3600 * 1000000000) "ZQX3" 94.670;
    mkTick (t0_nov - 60 * 1000000000) "ZQZ3" 94.665;
    mkTick (t0_nov + 60 * 1000000000) "ZQZ3" 94.670 ].

(** Trades for another contract only. *)
Definition zq_empty_day : list Tick :=
  [ mkTick (t0_nov - 60 * 1000000000) "ZQG4" 94.700 ].

(** Trades in both windows for the meeting-month contract ZQX3. *)
Definition zq_primary_day : list Tick :=
  [ mkTick (t0_nov - 60 * 1000000000) "ZQX3" 94.67;
    mkTick (t0_nov + 60 * 1000000000) "ZQX3" 94.66;
    mkTick (t0_nov + 90 * 1000000000) "ZQZ3" 94.70 ].

(** The record expected for [zq_primary_day]: one basis point, scaled by
    30 / 30. *)
Definition primary_record : ZqSurprise.SurpriseRecord :=
  {| ZqSurprise.meeting_id := "2023-11-01";
     ZqSurprise.t0_utc := t0_nov;
     ZqSurprise.primary_symbol := "ZQX3";
     ZqSurprise.fallback_symbol := "ZQZ3";
     ZqSurprise.symbol_used := Some "ZQX3"%string;
     ZqSurprise.price_pre := Some 94.67%Q;
     ZqSurprise.price_post := Some 94.66%Q;
     ZqSurprise.implied_pre := Some (100 - 94.67)%Q;
     ZqSurprise.implied_post := Some (100 - 94.66)%Q;
     ZqSurprise.delta_implied_bps := Some (((100 - 94.66) - (100 - 94.67)) * 100)%Q;
     ZqSurprise.days_in_month := 30;
     ZqSurprise.days_remaining_after_announcement := 30;
     ZqSurprise.scaling_factor := Some (inject_Z 30 / inject_Z 30)%Q;
     ZqSurprise.target_surprise_bps :=
       Some ((((100 - 94.66) - (100 - 94.67)) * 100) * (inject_Z 30 / inject_Z 30))%Q;
     ZqSurprise.notes := "" |}.

End Scenario.

(** * Properties *)

(** ** Sorted series and the as-of lookup *)

Section SeriesFacts.
Import Pandas.
Context {V : Type}.
Implicit Types (s : Series V) (r : Z * V) (t : Z).

Lemma ordered_cons_inv r s :
  ordered (r :: s) -> ordered s /\ Forall (fun r' => r.1 < r'.1) s.
Proof.
  unfold ordered, index. rewrite fmap_cons. intros H.
  apply StronglySorted_inv in H as [Hs Hall]. split; [exact Hs|].
  rewrite Forall_fmap in Hall. exact Hall.
Qed.

Lemma ordered_lookup_lt s i j r r' :
  ordered s -> s !! i = Some r -> s !! j = Some r' -> (i < j)%nat -> r.1 < r'.1.
Proof.
  revert i j. induction s as [|a s IH]; intros i j Hord Hi Hj Hlt.
  - rewrite lookup_nil in Hi. discriminate.
  - apply ordered_cons_inv in Hord as [Hord Hall].
    destruct j as [|j]; [lia|]. simpl in Hj.
    destruct i as [|i]; simpl in Hi.
    + injection Hi as <-. rewrite Forall_forall in Hall.
      apply Hall. eapply list_elem_of_lookup_2. exact Hj.
    + eapply (IH i j); eauto. lia.
Qed.

(** The label slice of [l1 ++ l2] is [l1] when every label of [l1] is at
    most [t] and [l2] starts beyond [t]. *)
Lemma loc_upto_app l1 l2 t :
  Forall (fun r => r.1 <= t) l1 ->
  (forall r, head l2 = Some r -> t < r.1) ->
  loc_upto t (l1 ++ l2) = l1.
Proof.
  intros Hall Hhd. induction Hall as [|r l1 Hr _ IH]; simpl.
  - destruct l2 as [|r l2]; [reflexivity|]. simpl.
    specialize (Hhd r eq_refl).
    destruct (Z.leb_spec r.1 t); [lia|reflexivity].
  - destruct (Z.leb_spec r.1 t); [|lia]. now rewrite IH.
Qed.

Lemma loc_upto_all s t :
  Forall (fun r => r.1 <= t) s -> loc_upto t s = s.
Proof.
  intros H. rewrite <- (app_nil_r s) at 1.
  apply loc_upto_app; [exact H|]. intros r Hr. discriminate.
Qed.

Lemma ordered_take_le s i r t :
  ordered s -> s !! i = Some r -> r.1 <= t ->
  Forall (fun r' => r'.1 <= t) (take (S i) s).
Proof.
  intros Hord Hi Hle. apply Forall_lookup_2. intros j r' Hj.
  apply lookup_take_Some in Hj as [Hj Hlt].
  destruct (decide (j = i)) as [->|Hne].
  - rewrite Hi in Hj. injection Hj as <-. exact Hle.
  - assert (r'.1 < r.1) by (eapply (ordered_lookup_lt s j i); eauto; lia). lia.
Qed.

(** The slice at [t] ends at row [i] when the label of row [i] is at most
    [t] and the next row, if any, is beyond [t]. *)
Lemma loc_upto_at s i r t :
  ordered s -> s !! i = Some r -> r.1 <= t ->
  (forall r', s !! S i = Some r' -> t < r'.1) ->
  loc_upto t s = take (S i) s.
Proof.
  intros Hord Hi Hle Hnext.
  rewrite <- (take_drop (S i) s) at 1.
  apply loc_upto_app.
  - eapply ordered_take_le; eauto.
  - intros r' Hr'. apply Hnext.
    rewrite head_lookup, lookup_drop, Nat.add_0_r in Hr'. exact Hr'.
Qed.

Lemma last_take_S s i r : s !! i = Some r -> last (take (S i) s) = Some r.
Proof.
  intros Hi. rewrite last_lookup.
  assert (Hlen : (i < length s)%nat) by (eapply lookup_lt_Some; eauto).
  rewrite length_take. replace (Nat.pred (S i `min` length s)) with i by lia.
  rewrite lookup_take_lt by lia. exact Hi.
Qed.

End SeriesFacts.

(** ** Series construction: duplicates and order *)

Section BuildFacts.
Import Pandas.
Context {V : Type}.
Implicit Types (s rows : Series V) (r : Z * V) (seen : gset Z).

Lemma drop_duplicates_seen_elem seen rows r :
  r ∈ drop_duplicates_seen seen rows -> r ∈ rows /\ r.1 ∉ seen.
Proof.
  revert seen. induction rows as [|a rows IH]; intros seen; simpl.
  - intros H. inversion H.
  - destruct (decide (a.1 ∈ seen)) as [Hin|Hnin].
    + intros H. apply IH in H as [H1 H2]. split; [now right|exact H2].
    + intros H. apply elem_of_cons in H as [->|H].
      * split; [now left|exact Hnin].
      * apply IH in H as [H1 H2]. split; [now right|].
        intros Hs. apply H2. apply elem_of_union. now right.
Qed.

Lemma drop_duplicates_seen_NoDup seen rows :
  NoDup (index (drop_duplicates_seen seen rows)).
Proof.
  revert seen. induction rows as [|a rows IH]; intros seen; simpl.
  - constructor.
  - destruct (decide (a.1 ∈ seen)); [apply IH|].
    unfold index. rewrite fmap_cons. constructor; [|apply IH].
    intros Hin. apply list_elem_of_fmap in Hin as (r & Hk & Hr).
    apply drop_duplicates_seen_elem in Hr as [_ Hr]. set_solver.
Qed.

Lemma insert_row_perm r s : insert_row r s ≡ₚ r :: s.
Proof.
  induction s as [|a s IH]; simpl; [reflexivity|].
  destruct (r.1 <=? a.1); [reflexivity|].
  rewrite IH. apply Permutation_swap.
Qed.

Lemma sort_values_perm rows : sort_values rows ≡ₚ rows.
Proof.
  induction rows as [|a rows IH]; simpl; [reflexivity|].
  unfold sort_values in *. simpl. rewrite insert_row_perm. now rewrite IH.
Qed.

Lemma insert_row_sorted r s :
  StronglySorted key_le s -> StronglySorted key_le (insert_row r s).
Proof.
  induction 1 as [|a s Hs IH Hall]; simpl.
  - repeat constructor.
  - destruct (Z.leb_spec r.1 a.1) as [Hle|Hgt].
    + constructor; [constructor; assumption|].
      constructor; [exact Hle|].
      eapply Forall_impl; [exact Hall|]. unfold key_le. intros; lia.
    + constructor; [exact IH|].
      rewrite insert_row_perm. constructor; [unfold key_le; lia|exact Hall].
Qed.

Lemma sort_values_sorted rows : StronglySorted key_le (sort_values rows).
Proof.
  induction rows as [|a rows IH]; simpl; [constructor|].
  apply insert_row_sorted, IH.
Qed.

(** Labels in weakly increasing order and without repetition increase
    strictly. *)
Lemma sorted_NoDup_ordered s :
  StronglySorted key_le s -> NoDup (index s) -> ordered s.
Proof.
  unfold ordered, index. induction 1 as [|a s Hs IH Hall]; simpl.
  - constructor.
  - rewrite NoDup_cons. intros [Hnin Hnd]. constructor; [apply IH, Hnd|].
    rewrite Forall_fmap. rewrite Forall_forall in Hall |- *.
    intros r Hr. specialize (Hall r Hr). unfold key_le in Hall. simpl.
    assert (a.1 <> r.1).
    { intros Heq. apply Hnin. rewrite Heq. apply list_elem_of_fmap. eauto. }
    lia.
Qed.

(** Dropping the duplicated labels and sorting gives an ordered series. *)
Lemma sort_drop_ordered rows : ordered (sort_values (drop_duplicates rows)).
Proof.
  apply sorted_NoDup_ordered; [apply sort_values_sorted|].
  unfold index. rewrite sort_values_perm.
  apply (drop_duplicates_seen_NoDup ∅ rows).
Qed.

End BuildFacts.

Lemma tick_series_ordered sym ticks :
  Pandas.ordered (HorizonSweep.tick_series sym ticks).
Proof. apply sort_drop_ordered. Qed.

(** ** The as-of resolver *)

(** The windowed lookup of the surprise calculator is the same as-of
    lookup at the end of the window when no label lies before its start. *)
Lemma last_price_in_window_asof (s : list (Z * Q)) (a b : Z) :
  Pandas.ordered s -> Forall (fun r => a <= r.1) s ->
  ZqSurprise.last_price_in_window s a b = HorizonSweep.asof s b.
Proof.
  unfold ZqSurprise.last_price_in_window, HorizonSweep.asof. intros Hord Hall.
  f_equal. unfold Pandas.loc_between.
  induction s as [|r s IH]; [reflexivity|].
  apply ordered_cons_inv in Hord as [Hord Hlt].
  apply Forall_cons in Hall as [Ha Hall]. simpl.
  rewrite (proj2 (Z.leb_le a r.1) Ha). simpl.
  destruct (Z.leb_spec r.1 b) as [Hb|Hb].
  - f_equal. apply IH; assumption.
  - clear IH Hall Hord. induction Hlt as [|r' s Hr' _ IH]; [reflexivity|].
    simpl. rewrite (proj2 (Z.leb_gt r'.1 b)) by lia.
    rewrite andb_false_r. exact IH.
Qed.

(** ** The price cache *)

Section CacheFacts.
Import HorizonSweep.
Variable tick_file : string -> string -> option (list Tick).

Lemma insert_str_perm x l : insert_str x l ≡ₚ x :: l.
Proof.
  induction l as [|y l IH]; simpl; [reflexivity|].
  destruct (String.leb x y); [reflexivity|].
  rewrite IH. apply Permutation_swap.
Qed.

Lemma elem_of_sorted_set m ids : m ∈ sorted_set ids <-> m ∈ ids.
Proof.
  unfold sorted_set. rewrite <- (elem_of_remove_dups ids).
  induction (remove_dups ids) as [|y l IH]; simpl; [reflexivity|].
  rewrite insert_str_perm, !elem_of_cons, IH. reflexivity.
Qed.

(** What the inner loop leaves under a key. *)
Lemma cache_meetings_lookup sym mtgs cache m s :
  cache_meetings tick_file sym mtgs cache !! (m, s) =
    if decide (s = sym /\ m ∈ mtgs) then
      match tick_file sym m with
      | Some ticks => Some (tick_series sym ticks)
      | None => cache !! (m, s)
      end
    else cache !! (m, s).
Proof.
  revert cache. induction mtgs as [|mtg rest IH]; intros cache; simpl.
  - destruct (decide _) as [[_ H]|_]; [inversion H|reflexivity].
  - destruct (tick_file sym mtg) as [ticks|] eqn:Hfile; rewrite IH; clear IH.
    + destruct (decide (s = sym /\ m ∈ rest)) as [[-> Hin]|Hn].
      * rewrite decide_True by (split; [reflexivity|now right]).
        destruct (tick_file sym m) eqn:Hm; [reflexivity|].
        rewrite lookup_insert_ne; [reflexivity|]. congruence.
      * destruct (decide ((mtg, sym) = (m, s))) as [Heq|Hne].
        -- injection Heq as <- <-. rewrite lookup_insert_eq.
           rewrite decide_True by (split; [reflexivity|now left]).
           now rewrite Hfile.
        -- rewrite lookup_insert_ne by exact Hne.
           rewrite decide_False; [reflexivity|].
           intros [-> Hin]. apply elem_of_cons in Hin as [->|Hin]; tauto.
    + destruct (decide (s = sym /\ m ∈ rest)) as [[-> Hin]|Hn].
      * rewrite decide_True by (split; [reflexivity|now right]). reflexivity.
      * destruct (decide (s = sym /\ m ∈ mtg :: rest)) as [[-> Hin]|_];
          [|reflexivity].
        apply elem_of_cons in Hin as [->|Hin]; [|tauto].
        now rewrite Hfile.
Qed.

(** The cache holds, for each asset and each meeting that has a tick file,
    the per-second series of that file, and nothing else. *)
Lemma build_price_cache_lookup meeting_ids m s :
  build_price_cache tick_file meeting_ids !! (m, s) =
    if decide (s ∈ ASSETS /\ m ∈ meeting_ids) then tick_series s <$> tick_file s m
    else None.
Proof.
  unfold build_price_cache, ASSETS. simpl.
  rewrite !cache_meetings_lookup, lookup_empty.
  destruct (decide (s ∈ ["ES"; "ZT"]%string /\ m ∈ meeting_ids)) as [[Hs Hm]|Hn].
  - apply (proj2 (elem_of_sorted_set _ _)) in Hm.
    rewrite !elem_of_cons in Hs. destruct Hs as [->|[->|Hs]]; [| |inversion Hs].
    + rewrite decide_False by (intros [? _]; discriminate).
      rewrite decide_True by (split; [reflexivity|exact Hm]).
      now destruct (tick_file _ m).
    + rewrite decide_True by (split; [reflexivity|exact Hm]).
      destruct (tick_file "ZT" m); [reflexivity|].
      rewrite decide_False by (intros [? _]; discriminate). reflexivity.
  - destruct (decide (s = "ZT"%string /\ _)) as [[-> Hm]|_].
    { exfalso. apply Hn. apply (proj1 (elem_of_sorted_set _ _)) in Hm.
      split; [|exact Hm]. right. left. }
    destruct (decide (s = "ES"%string /\ _)) as [[-> Hm]|_].
    { exfalso. apply Hn. apply (proj1 (elem_of_sorted_set _ _)) in Hm.
      split; [|exact Hm]. left. }
    reflexivity.
Qed.

End CacheFacts.

(** ** Duplicated seconds *)

Section FirstWins.
Import Pandas.
Context {V : Type}.
Implicit Types (rows pre post : Series V) (r : Z * V) (seen : gset Z).

(** A row whose label occurs in no earlier row survives
    [drop_duplicates]. *)
Lemma drop_duplicates_seen_first seen pre r post :
  r.1 ∉ seen -> r.1 ∉ index pre ->
  r ∈ drop_duplicates_seen seen (pre ++ r :: post).
Proof.
  revert seen. induction pre as [|a pre IH]; intros seen Hseen Hpre; simpl.
  - rewrite decide_False by exact Hseen. left.
  - unfold index in Hpre. rewrite fmap_cons, not_elem_of_cons in Hpre.
    destruct Hpre as [Hne Hpre].
    destruct (decide (a.1 ∈ seen)); [now apply IH|].
    right. apply IH; [|exact Hpre].
    rewrite elem_of_union, elem_of_singleton. tauto.
Qed.

(** An ordered series holds one value per label. *)
Lemma ordered_functional (s : Series V) k v v' :
  ordered s -> (k, v) ∈ s -> (k, v') ∈ s -> v = v'.
Proof.
  intros Hord Hv Hv'.
  apply list_elem_of_lookup in Hv as [i Hi], Hv' as [j Hj].
  destruct (Nat.lt_trichotomy i j) as [Hlt|[->|Hlt]].
  - pose proof (ordered_lookup_lt s i j _ _ Hord Hi Hj Hlt). simpl in *. lia.
  - congruence.
  - pose proof (ordered_lookup_lt s j i _ _ Hord Hj Hi Hlt). simpl in *. lia.
Qed.

End FirstWins.

(** The per-second series keeps, for each second, the price of the first
    tick of that second in row order. *)
Lemma tick_series_first_row_wins sym pre tk post p :
  let sec := fun x => ts_event x / 1000000000 in
  let stored := fun x => if String.eqb sym "ES" then (price x / 100)%Q else price x in
  Forall (fun x => sec x <> sec tk) pre ->
  (sec tk, p) ∈ HorizonSweep.tick_series sym (pre ++ tk :: post) ->
  p = stored tk.
Proof.
  intros sec stored Hpre Hin.
  eapply (ordered_functional _ (sec tk)); [apply tick_series_ordered|exact Hin|].
  unfold HorizonSweep.tick_series. rewrite sort_values_perm.
  rewrite !fmap_app, !fmap_cons, zip_with_app by (now rewrite !length_fmap).
  simpl. apply (drop_duplicates_seen_first ∅ _ (sec tk, stored tk)).
  - apply not_elem_of_empty.
  - unfold Pandas.index. rewrite fst_zip by (rewrite !length_fmap; lia).
    simpl. intros Hel. apply list_elem_of_fmap in Hel as (x & Hx & Hel).
    rewrite Forall_forall in Hpre. exact (Hpre x Hel (eq_sym Hx)).
Qed.

(** C2.  Two ZT trades at 1.0 s and 1.5 s, in chronological order, with
    prices 100 and 101: the cache maps the second 1 to 100, the price of the
    earlier trade; the price 101 of the latest trade of that second is
    dropped. *)
Theorem same_second_keeps_first_tick :
  HorizonSweep.build_price_cache Scenario.tick_store ["2023-11-01"%string]
    !! ("2023-11-01", "ZT")%string = Some [(1, 100%Q)].
Proof. vm_compute. reflexivity. Qed.

(** ** Symbols *)

Lemma strip_prefix_ZQ z q s :
  Spec.strip_prefix "ZQ" (String z (String q s)) =
    if Ascii.eqb "Z" z then if Ascii.eqb "Q" q then Some s else None else None.
Proof. reflexivity. Qed.

Lemma strip_prefix_ZQ_short z :
  Spec.strip_prefix "ZQ" (String z "") = if Ascii.eqb "Z" z then None else None.
Proof. reflexivity. Qed.

(** The pattern of the ZQ reader is the single-leg pattern for root ZQ. *)
Lemma match_zq_single_leg_spec s :
  ZqSurprise.match_zq_single_leg s = Spec.single_leg "ZQ" s.
Proof.
  unfold ZqSurprise.match_zq_single_leg, Spec.single_leg.
  destruct s as [|z [|q s]]; [reflexivity| |].
  - rewrite strip_prefix_ZQ_short. now destruct (Ascii.eqb "Z" z).
  - rewrite strip_prefix_ZQ, (Ascii.eqb_sym z), (Ascii.eqb_sym q).
    destruct s as [|c [|d rest]];
      destruct (Ascii.eqb "Z" z), (Ascii.eqb "Q" q); reflexivity.
Qed.

Lemma sort_values_elem {V} (rows : list (Z * V)) (r : Z * V) :
  r ∈ Pandas.sort_values rows <-> r ∈ rows.
Proof. now rewrite sort_values_perm. Qed.

(** The ZQ reader keeps single-leg monthly contracts only. *)
Lemma read_ticks_single_leg raw tk :
  tk ∈ ZqSurprise.read_ticks raw ->
  tk ∈ raw /\ Spec.single_leg "ZQ" (symbol tk) = true.
Proof.
  unfold ZqSurprise.read_ticks, ZqSurprise.sort_by_ts_event. intros Hin.
  apply list_elem_of_fmap in Hin as ([k tk'] & -> & Hin). simpl.
  apply (proj1 (sort_values_elem _ _)) in Hin.
  apply list_elem_of_fmap in Hin as (x & [= _ <-] & Hin).
  apply list_elem_of_In, filter_In in Hin as [Hin Hm].
  rewrite <- match_zq_single_leg_spec. split; [|exact Hm].
  apply list_elem_of_In. exact Hin.
Qed.

(** C9.  The ES file of the day holds the outright trade ESZ3 at 4500 and
    the calendar-spread trade ESZ3-ESH4 at 55.25.  The spread symbol does
    not match the single-leg pattern, the ZQ reader would drop such a row,
    and yet the ES series of the price cache holds the spread price (as
    55.25 / 100) at second 2. *)
Theorem spread_tick_enters_es_series :
  Spec.single_leg "ES" "ESZ3-ESH4" = false /\
  Spec.single_leg "ES" "ESZ3" = true /\
  ZqSurprise.read_ticks
    [ mkTick 1000000000 "ZQX3" 94.67; mkTick 2000000000 "ZQX3-ZQZ3" 0.01 ]
    = [ mkTick 1000000000 "ZQX3" 94.67 ] /\
  HorizonSweep.build_price_cache Scenario.tick_store ["2023-11-01"%string]
    !! ("2023-11-01", "ES")%string
    = Some [(1, (4500 / 100)%Q); (2, (55.25 / 100)%Q)].
Proof. vm_compute. repeat split; reflexivity. Qed.

(** ** Rescaling of the stored prices *)

Section ValueMap.
Import Pandas.
Context {V W : Type} (g : V -> W).
Implicit Types (rows s : Series V) (r : Z * V).

Lemma drop_duplicates_seen_fmap seen rows :
  drop_duplicates_seen seen (prod_map (fun k : Z => k) g <$> rows)
  = prod_map (fun k : Z => k) g <$> drop_duplicates_seen seen rows.
Proof.
  revert seen. induction rows as [|a rows IH]; intros seen; simpl; [reflexivity|].
  destruct (decide (a.1 ∈ seen)); simpl; [apply IH|f_equal; apply IH].
Qed.

Lemma insert_row_fmap r s :
  insert_row (prod_map (fun k : Z => k) g r) (prod_map (fun k : Z => k) g <$> s)
  = prod_map (fun k : Z => k) g <$> insert_row r s.
Proof.
  induction s as [|a s IH]; simpl; [reflexivity|].
  destruct (r.1 <=? a.1); simpl; [reflexivity|]. f_equal. exact IH.
Qed.

Lemma sort_values_fmap rows :
  sort_values (prod_map (fun k : Z => k) g <$> rows) = prod_map (fun k : Z => k) g <$> sort_values rows.
Proof.
  induction rows as [|a rows IH]; [reflexivity|].
  rewrite fmap_cons. unfold sort_values in *. cbn [foldr].
  rewrite IH. apply insert_row_fmap.
Qed.

Lemma loc_upto_fmap t s :
  loc_upto t (prod_map (fun k : Z => k) g <$> s) = prod_map (fun k : Z => k) g <$> loc_upto t s.
Proof.
  induction s as [|a s IH]; simpl; [reflexivity|].
  destruct (a.1 <=? t); simpl; [f_equal; exact IH|reflexivity].
Qed.

Lemma iloc_last_fmap s :
  iloc_last (prod_map (fun k : Z => k) g <$> s) = g <$> iloc_last s.
Proof.
  unfold iloc_last. rewrite fmap_last. now destruct (last s) as [[k v]|].
Qed.

End ValueMap.

Lemma drop_duplicates_seen_sub {V} seen (rows : list (Z * V)) r :
  r ∈ Pandas.drop_duplicates_seen seen rows -> r ∈ rows.
Proof. intros H. now apply drop_duplicates_seen_elem in H. Qed.

(** Every stored row of a series that is not the ES one is a tick of the
    file, with its price as it is. *)
Lemma tick_series_rows_raw sym ticks k p :
  sym <> "ES"%string ->
  (k, p) ∈ HorizonSweep.tick_series sym ticks ->
  exists tk, tk ∈ ticks /\ k = ts_event tk / 1000000000 /\ p = price tk.
Proof.
  intros Hsym Hin. unfold HorizonSweep.tick_series in Hin.
  apply (proj1 (sort_values_elem _ _)) in Hin.
  apply drop_duplicates_seen_sub in Hin.
  apply list_elem_of_lookup in Hin as [i Hi].
  apply lookup_zip_with_Some in Hi as (x & y & Heq & Hx & Hy).
  rewrite list_lookup_fmap in Hx. rewrite list_lookup_fmap in Hy.
  destruct (ticks !! i) as [tk|] eqn:Htk; [|discriminate].
  simpl in Hx, Hy. injection Hx as <-. injection Hy as <-.
  injection Heq as -> ->. exists tk. split; [|split; [reflexivity|]].
  - eapply list_elem_of_lookup_2; eauto.
  - rewrite (proj2 (String.eqb_neq sym "ES")) by exact Hsym. reflexivity.
Qed.

Lemma tick_series_es ticks :
  HorizonSweep.tick_series "ES" ticks
  = prod_map (fun k : Z => k) (fun p => (p / 100)%Q) <$> HorizonSweep.tick_series "ZT" ticks.
Proof.
  unfold HorizonSweep.tick_series. simpl String.eqb. cbv iota.
  rewrite <- sort_values_fmap. unfold Pandas.drop_duplicates.
  rewrite <- drop_duplicates_seen_fmap. do 2 f_equal.
  rewrite prod_map_zip, list_fmap_id, <- list_fmap_compose. reflexivity.
Qed.

Lemma asof_fmap (g : Q -> Q) (s : list (Z * Q)) t :
  HorizonSweep.asof (prod_map (fun k : Z => k) g <$> s) t = g <$> HorizonSweep.asof s t.
Proof. unfold HorizonSweep.asof. now rewrite loc_upto_fmap, iloc_last_fmap. Qed.

(** ** Forward returns *)

(** The cell of column [d_px_h] at row [i] is the delta of that row. *)
Lemma add_forward_returns_cell (df : list HorizonSweep.ReturnRow)
    (c : HorizonSweep.cache_t) (horizons : list Z) (h : Z) (i : nat)
    (r : HorizonSweep.ReturnRow) :
  h ∈ horizons -> df !! i = Some r ->
  exists col, (h, col) ∈ HorizonSweep.add_forward_returns df c horizons /\
              col !! i = Some (HorizonSweep.forward_delta c r h).
Proof.
  intros Hh Hi. eexists. split.
  - unfold HorizonSweep.add_forward_returns.
    apply list_elem_of_fmap. exists h. split; [reflexivity|exact Hh].
  - rewrite list_lookup_fmap, Hi. reflexivity.
Qed.

(** A price that is available at [t] is available at every later time, so
    with a horizon [h >= 0] the fallback [p1 = p0] is never taken. *)
Lemma asof_available_later (s : list (Z * Q)) t t' :
  t <= t' -> is_Some (HorizonSweep.asof s t) -> is_Some (HorizonSweep.asof s t').
Proof.
  unfold HorizonSweep.asof, Pandas.iloc_last. intros Hle.
  destruct s as [|r s]; simpl; [intros [x Hx]; discriminate|].
  destruct (Z.leb_spec r.1 t) as [Hr|Hr]; [|intros [x Hx]; discriminate].
  intros _. destruct (Z.leb_spec r.1 t') as [_|Hr']; [|lia].
  rewrite fmap_is_Some, last_is_Some. discriminate.
Qed.

(** The end-to-end series (100.00 at 14:19:59, 99.98 at 14:30:00, 99.95 at
    14:40:01) with the anchor at 14:30:00: horizon 0 gives 0; at horizon
    600 the last trade at or before 14:40:00 is still the one of 14:30:00,
    so the delta is 0; at horizon 3600 the last trade is the one of
    14:40:01, so the delta is 99.95 - 99.98. *)
Example scenario_deltas :
  oQeq (HorizonSweep.forward_delta Scenario.day_cache Scenario.day_row 0) (Some 0%Q) /\
  oQeq (HorizonSweep.forward_delta Scenario.day_cache Scenario.day_row 600) (Some 0%Q) /\
  oQeq (HorizonSweep.forward_delta Scenario.day_cache Scenario.day_row 601)
       (Some (-0.03)%Q) /\
  oQeq (HorizonSweep.forward_delta Scenario.day_cache Scenario.day_row 3600)
       (Some (-0.03)%Q).
Proof. vm_compute. repeat split; reflexivity. Qed.

(** ** Contract symbols *)

Section SymbolFacts.
Import Calendar ZqSurprise.

Lemma month_cases (m : Z) :
  1 <= m <= 12 ->
  m = 1 \/ m = 2 \/ m = 3 \/ m = 4 \/ m = 5 \/ m = 6 \/
  m = 7 \/ m = 8 \/ m = 9 \/ m = 10 \/ m = 11 \/ m = 12.
Proof. lia. Qed.

Lemma MONTH_CODE_total (m : Z) : 1 <= m <= 12 -> is_Some (MONTH_CODE !! m).
Proof.
  intros Hm. apply month_cases in Hm.
  repeat (destruct Hm as [->|Hm]; [vm_compute; eauto|]). subst. vm_compute. eauto.
Qed.

Lemma monthrange_days_bounds (y m : Z) :
  1 <= m <= 12 -> exists n, monthrange_days y m = Some n /\ 28 <= n <= 31.
Proof.
  intros Hm. apply month_cases in Hm. unfold monthrange_days.
  repeat (destruct Hm as [->|Hm];
          [simpl; destruct (isleap y); eexists; (split; [reflexivity|lia])|]).
  subst. simpl. eexists. split; [reflexivity|lia].
Qed.

Lemma zq_symbol_total d : valid_date d -> is_Some (zq_symbol_for_meeting d).
Proof.
  intros (_ & Hm & _). unfold zq_symbol_for_meeting.
  destruct (MONTH_CODE_total _ Hm) as [code ->]. simpl. eauto.
Qed.

(** The fallback symbol, spelled out. *)
Lemma zq_next_month_symbol_eq d :
  zq_next_month_symbol d =
    if month d =? 12
    then code ← MONTH_CODE !! 1; Some ("ZQ" +:+ code +:+ str_of_int ((year d + 1) mod 10))
    else code ← MONTH_CODE !! (month d + 1);
         Some ("ZQ" +:+ code +:+ str_of_int (year d mod 10)).
Proof.
  unfold zq_next_month_symbol.
  destruct (Z.eqb_spec (month d) 12) as [->|Hne]; [reflexivity|].
  destruct (Z.eqb_spec (month d + 1) 13) as [Heq|_]; [lia|reflexivity].
Qed.

Lemma zq_next_month_symbol_total d :
  valid_date d -> is_Some (zq_next_month_symbol d).
Proof.
  intros (_ & Hm & _). rewrite zq_next_month_symbol_eq.
  destruct (Z.eqb_spec (month d) 12) as [H12|H12].
  - destruct (MONTH_CODE_total 1 ltac:(lia)) as [code ->]. simpl. eauto.
  - destruct (MONTH_CODE_total (month d + 1) ltac:(lia)) as [code ->].
    simpl. eauto.
Qed.


End SymbolFacts.



(** 31 January of a leap year shifts to 29 February, and the fallback of
    the January date is the February contract. *)
Example leap_february_shift :
  Spec.date_plus_one_month {| year := 2024; month := 1; day := 31 |}
    = {| year := 2024; month := 2; day := 29 |} /\
  Spec.date_plus_one_month {| year := 2023; month := 1; day := 31 |}
    = {| year := 2023; month := 2; day := 28 |} /\
  ZqSurprise.zq_next_month_symbol {| year := 2024; month := 1; day := 31 |}
    = Some "ZQG4"%string /\
  ZqSurprise.zq_symbol_for_meeting {| year := 2024; month := 2; day := 29 |}
    = Some "ZQG4"%string.
Proof. vm_compute. repeat split; reflexivity. Qed.

(** ** The surprise record *)

Section SurpriseFacts.
Import Calendar ZqSurprise.
Variable strptime_ymd : string -> option date.
Variable eastern_1430_utc : date -> Z.

(** A candidate yields a record exactly when it has a pre-window and a
    post-window price. *)
Lemma try_symbol_spec df_day t0 sym :
  try_symbol df_day t0 sym =
    match Spec.pre_price df_day t0 sym, Spec.post_price df_day t0 sym with
    | Some p_pre, Some p_post => Some (sym, p_pre, p_post)
    | _, _ => None
    end.
Proof.
  unfold try_symbol, Spec.pre_price, Spec.post_price, Spec.symbol_series.
  destruct (List.filter _ df_day) as [|tk sub]; reflexivity.
Qed.

Lemma try_symbol_has_both df_day t0 sym :
  Spec.has_both df_day t0 sym = bool_decide (is_Some (try_symbol df_day t0 sym)).
Proof.
  rewrite try_symbol_spec. unfold Spec.has_both.
  destruct (Spec.pre_price df_day t0 sym), (Spec.post_price df_day t0 sym);
    reflexivity.
Qed.

(** On a calendar date the function returns a record: neither lookup
    raises. *)
Lemma compute_for_meeting_eq day_iso df_day d pri alt D :
  strptime_ymd day_iso = Some d ->
  zq_symbol_for_meeting d = Some pri ->
  zq_next_month_symbol d = Some alt ->
  monthrange_days (year d) (month d) = Some D ->
  compute_for_meeting strptime_ymd eastern_1430_utc day_iso df_day
  = Some (fill_record day_iso (eastern_1430_utc d) pri alt D (day d)
            (first_symbol df_day (eastern_1430_utc d) [pri; alt])).
Proof.
  intros Hd Hpri Halt HD. unfold compute_for_meeting, t0_utc_on_meeting_day.
  rewrite Hd. cbn [fmap option_fmap option_map mbind option_bind].
  rewrite Hpri. cbn [mbind option_bind]. rewrite Halt. cbn [mbind option_bind].
  rewrite HD. reflexivity.
Qed.

(** On a calendar date the function returns a record: neither lookup
    raises. *)
Lemma compute_for_meeting_total day_iso df_day d :
  strptime_ymd day_iso = Some d -> valid_date d ->
  exists pri alt D,
    zq_symbol_for_meeting d = Some pri /\
    zq_next_month_symbol d = Some alt /\
    monthrange_days (year d) (month d) = Some D /\
    1 <= day d <= D /\
    compute_for_meeting strptime_ymd eastern_1430_utc day_iso df_day
    = Some (fill_record day_iso (eastern_1430_utc d) pri alt D (day d)
              (first_symbol df_day (eastern_1430_utc d) [pri; alt])).
Proof.
  intros Hd Hv.
  destruct (zq_symbol_total d Hv) as [pri Hpri].
  destruct (zq_next_month_symbol_total d Hv) as [alt Halt].
  destruct Hv as (_ & _ & D & HD & Hday).
  exists pri, alt, D. repeat split; try assumption; try lia.
  now apply compute_for_meeting_eq.
Qed.

(** C4.  For a meeting on a calendar date whose record carries a pre and a
    post price: implied = 100 - price for both, delta_bps = (implied_post -
    implied_pre) * 100, days_remaining = D - d + 1, scaling_factor = D /
    days_remaining and target_surprise_bps = delta_bps * scaling_factor; on
    the last day of a 30-day month days_remaining is 1 and the factor 30, on
    day 1 of a 31-day month days_remaining is 31 and the factor 1. *)
Theorem surprise_record_formulas day_iso df_day d rec p_pre p_post :
  strptime_ymd day_iso = Some d -> valid_date d ->
  compute_for_meeting strptime_ymd eastern_1430_utc day_iso df_day = Some rec ->
  price_pre rec = Some p_pre -> price_post rec = Some p_post ->
  exists D, monthrange_days (year d) (month d) = Some D /\
    let rem := D - day d + 1 in
    let delta_bps := (((100 - p_post) - (100 - p_pre)) * 100)%Q in
    let sf := (inject_Z D / inject_Z rem)%Q in
    implied_pre rec = Some (100 - p_pre)%Q /\
    implied_post rec = Some (100 - p_post)%Q /\
    delta_implied_bps rec = Some delta_bps /\
    days_in_month rec = D /\
    days_remaining_after_announcement rec = rem /\
    scaling_factor rec = Some sf /\
    target_surprise_bps rec = Some (delta_bps * sf)%Q /\
    (D = 30 -> day d = 30 -> rem = 1 /\ (sf == 30)%Q) /\
    (D = 31 -> day d = 1 -> rem = 31 /\ (sf == 1)%Q).
Proof.
  intros Hd Hv Hrec Hpre Hpost.
  destruct (compute_for_meeting_total day_iso df_day d Hd Hv)
    as (pri & alt & D & _ & _ & HD & Hday & Heq).
  rewrite Heq in Hrec. clear Heq.
  remember (first_symbol df_day (eastern_1430_utc d) [pri; alt]) as r eqn:Hr.
  clear Hr. injection Hrec as <-.
  exists D. split; [exact HD|].
  destruct r as [[[s p] q]|]; cbn in *; [|discriminate].
  injection Hpre as ->. injection Hpost as ->.
  destruct (Z.ltb_spec 0 (D - day d + 1)) as [_|Hneg]; [|lia].
  repeat split.
  - subst. lia.
  - subst. rewrite H0. vm_compute. reflexivity.
  - subst. lia.
  - subst. rewrite H0. vm_compute. reflexivity.
Qed.

(** C5.  On a calendar date the function returns a record.  When the
    meeting-month contract has both prices it is the one used, whatever the
    next-month contract holds; the next-month contract is used exactly when
    the meeting-month one lacks a price and the next-month one has both, and
    then the notes stay empty; when neither has both, no symbol is used,
    the prices, implied rates and both deltas are unavailable, and the
    notes carry the explanation. *)
Theorem symbol_fallback day_iso df_day d :
  strptime_ymd day_iso = Some d -> valid_date d ->
  exists rec pri alt,
    compute_for_meeting strptime_ymd eastern_1430_utc day_iso df_day = Some rec /\
    zq_symbol_for_meeting d = Some pri /\
    zq_next_month_symbol d = Some alt /\
    primary_symbol rec = pri /\ fallback_symbol rec = alt /\
    let t0 := eastern_1430_utc d in
    (Spec.has_both df_day t0 pri = true ->
       symbol_used rec = Some pri /\
       price_pre rec = Spec.pre_price df_day t0 pri /\
       price_post rec = Spec.post_price df_day t0 pri /\
       notes rec = ""%string) /\
    (Spec.has_both df_day t0 pri = false -> Spec.has_both df_day t0 alt = true ->
       symbol_used rec = Some alt /\
       price_pre rec = Spec.pre_price df_day t0 alt /\
       price_post rec = Spec.post_price df_day t0 alt /\
       notes rec = ""%string) /\
    (Spec.has_both df_day t0 pri = false -> Spec.has_both df_day t0 alt = false ->
       symbol_used rec = None /\
       price_pre rec = None /\ price_post rec = None /\
       implied_pre rec = None /\ implied_post rec = None /\
       delta_implied_bps rec = None /\ target_surprise_bps rec = None /\
       notes rec = NO_TRADES_NOTE /\ notes rec <> ""%string).
Proof.
  intros Hd Hv.
  destruct (compute_for_meeting_total day_iso df_day d Hd Hv)
    as (pri & alt & D & Hpri & Halt & HD & Hday & Heq).
  eexists _, pri, alt. split; [exact Heq|].
  split; [exact Hpri|]. split; [exact Halt|].
  unfold fill_record. cbn [first_symbol]. rewrite !try_symbol_spec.
  unfold Spec.has_both.
  destruct (Spec.pre_price df_day _ pri) as [a|],
           (Spec.post_price df_day _ pri) as [b|],
           (Spec.pre_price df_day _ alt) as [a'|],
           (Spec.post_price df_day _ alt) as [b'|];
    cbn; repeat split; intros; try discriminate; try reflexivity.
Qed.

End SurpriseFacts.

Lemma nov_2023_valid : Calendar.valid_date Scenario.nov_2023.
Proof.
  repeat split; simpl; try lia. exists 30. split; [reflexivity|lia].
Qed.

Lemma primary_record_computed :
  ZqSurprise.compute_for_meeting Scenario.strptime_ymd Scenario.eastern_1430_utc
    "2023-11-01" Scenario.zq_primary_day = Some Scenario.primary_record.
Proof. vm_compute. reflexivity. Qed.

Lemma surprise_record_formulas_witness :
  exists D,
    Calendar.monthrange_days 2023 11 = Some D /\
    ZqSurprise.days_remaining_after_announcement Scenario.primary_record = D - 1 + 1 /\
    ZqSurprise.target_surprise_bps Scenario.primary_record
    = Some ((((100 - 94.66) - (100 - 94.67)) * 100)
            * (inject_Z D / inject_Z (D - 1 + 1)))%Q.
Proof.
  destruct (surprise_record_formulas Scenario.strptime_ymd
              Scenario.eastern_1430_utc "2023-11-01" Scenario.zq_primary_day
              Scenario.nov_2023 Scenario.primary_record 94.67%Q 94.66%Q
              eq_refl nov_2023_valid primary_record_computed eq_refl eq_refl)
    as (D & HD & _ & _ & _ & _ & Hrem & _ & Htarget & _).
  exists D. split; [exact HD|]. split; [exact Hrem|exact Htarget].
Defined.

Lemma symbol_fallback_witness :
  exists rec,
    ZqSurprise.compute_for_meeting Scenario.strptime_ymd Scenario.eastern_1430_utc
      "2023-11-01" Scenario.zq_fallback_day = Some rec /\
    ZqSurprise.symbol_used rec = Some "ZQZ3"%string /\
    ZqSurprise.notes rec = ""%string.
Proof.
  destruct (symbol_fallback Scenario.strptime_ymd Scenario.eastern_1430_utc
              "2023-11-01" Scenario.zq_fallback_day Scenario.nov_2023
              eq_refl nov_2023_valid)
    as (rec & pri & alt & Hrec & Hpri & Halt & _ & _ & _ & Hfall & _).
  injection Hpri as <-. injection Halt as <-.
  exists rec. split; [exact Hrec|].
  destruct (Hfall eq_refl eq_refl) as (Hs & _ & _ & Hn). split; assumption.
Defined.

(** The end-to-end scenarios of the surprise calculator on the meeting of
    2023-11-01: trades for the meeting-month contract ZQX3 in both windows;
    trades for the next-month contract ZQZ3 only; trades for neither. *)
Example scenario_surprise :
  let run := ZqSurprise.compute_for_meeting Scenario.strptime_ymd
               Scenario.eastern_1430_utc "2023-11-01" in
  (ZqSurprise.symbol_used <$> run Scenario.zq_primary_day) = Some (Some "ZQX3"%string) /\
  (ZqSurprise.symbol_used <$> run Scenario.zq_fallback_day) = Some (Some "ZQZ3"%string) /\
  (ZqSurprise.notes <$> run Scenario.zq_fallback_day) = Some ""%string /\
  (ZqSurprise.symbol_used <$> run Scenario.zq_empty_day) = Some None /\
  (ZqSurprise.delta_implied_bps <$> run Scenario.zq_empty_day) = Some None /\
  (ZqSurprise.target_surprise_bps <$> run Scenario.zq_empty_day) = Some None /\
  (ZqSurprise.notes <$> run Scenario.zq_empty_day) = Some ZqSurprise.NO_TRADES_NOTE /\
  (ZqSurprise.scaling_factor <$> run Scenario.zq_empty_day)
    = Some (Some (inject_Z 30 / inject_Z 30)%Q).
Proof. vm_compute. repeat split; reflexivity. Qed.

(** ** Winsorisation *)

Section ClipFacts.
Import Pandas.
Local Open Scope R_scope.
Implicit Types (s : list (option R)) (xs : list R) (c x : R).

Lemma clip_symmetric c s :
  0 <= c -> clip (Some (- c)) (Some c) s = (fun o : option R => cap_at c <$> o) <$> s.
Proof.
  intros Hc. unfold clip.
  rewrite Rmin_left by lra. rewrite Rmax_right by lra. reflexivity.
Qed.

Lemma cap_at_inside c x : - c <= x <= c -> cap_at c x = x.
Proof.
  intros [Hl Hu]. unfold cap_at. rewrite Rmax_left by lra. now rewrite Rmin_left by lra.
Qed.

Lemma cap_at_above c x : 0 <= c -> c <= x -> cap_at c x = c.
Proof.
  intros Hc Hx. unfold cap_at. rewrite Rmax_left by lra. now rewrite Rmin_right by lra.
Qed.

Lemma cap_at_below c x : 0 <= c -> x <= - c -> cap_at c x = - c.
Proof.
  intros Hc Hx. unfold cap_at. rewrite Rmax_right by lra. now rewrite Rmin_left by lra.
Qed.

Lemma cap_at_bounds c x : 0 <= c -> - c <= cap_at c x <= c.
Proof.
  intros Hc. destruct (Rle_dec x (- c)) as [H1|H1].
  - rewrite cap_at_below by lra. lra.
  - destruct (Rle_dec c x) as [H2|H2].
    + rewrite cap_at_above by lra. lra.
    + rewrite cap_at_inside by lra. lra.
Qed.

Lemma cap_at_idempotent c x : 0 <= c -> cap_at c (cap_at c x) = cap_at c x.
Proof. intros Hc. apply cap_at_inside, cap_at_bounds, Hc. Qed.

Lemma cap_at_increasing c x y :
  0 <= c -> x <= y -> 0 <= cap_at c y - cap_at c x <= y - x.
Proof.
  intros Hc Hxy.
  destruct (Rle_dec x (- c)), (Rle_dec c x), (Rle_dec y (- c)), (Rle_dec c y);
    repeat first [ rewrite (cap_at_below c x) by lra
                 | rewrite (cap_at_above c x) by lra
                 | rewrite (cap_at_inside c x) by lra
                 | rewrite (cap_at_below c y) by lra
                 | rewrite (cap_at_above c y) by lra
                 | rewrite (cap_at_inside c y) by lra ];
    lra.
Qed.

(** Capping moves two values no further apart. *)
Lemma cap_at_contracts c x y :
  0 <= c -> (cap_at c x - cap_at c y) * (cap_at c x - cap_at c y) <= (x - y) * (x - y).
Proof.
  intros Hc. destruct (Rle_dec x y) as [Hxy|Hxy].
  - pose proof (cap_at_increasing c x y Hc Hxy). nra.
  - pose proof (cap_at_increasing c y x Hc ltac:(lra)). nra.
Qed.

Lemma std_pop_nonneg s v : std_pop s = Some v -> 0 <= v.
Proof.
  unfold std_pop. destruct (dropna s); [discriminate|].
  intros [= <-]. apply sqrt_pos.
Qed.

(** The standard deviation of a column whose mean square deviation is
    [v * v]. *)
Lemma std_pop_of_square s v :
  dropna s <> [] -> 0 <= v ->
  sq_dev (dropna s) / INR (length (dropna s)) = v * v ->
  std_pop s = Some v.
Proof.
  intros Hne Hv Hsq. unfold std_pop.
  destruct (dropna s) as [|x xs] eqn:Hxs; [contradiction|].
  rewrite Hsq, sqrt_square by exact Hv. reflexivity.
Qed.

End ClipFacts.

Section DeviationFacts.
Import Pandas.
Local Open Scope R_scope.
Implicit Types (s : list (option R)) (xs : list R) (c m x : R).

Lemma dropna_fmap (f : R -> R) s :
  dropna ((fun o : option R => f <$> o) <$> s) = f <$> dropna s.
Proof.
  unfold dropna. induction s as [|[x|] s IH]; simpl; [reflexivity| |exact IH].
  f_equal. exact IH.
Qed.

Lemma INR_length_pos xs : xs <> [] -> 0 < INR (length xs).
Proof.
  intros Hne. destruct xs as [|x xs]; [contradiction|].
  cbn [length]. rewrite S_INR. pose proof (pos_INR (length xs)). lra.
Qed.

Lemma Rsum_centered xs m :
  Rsum ((fun x => x - m) <$> xs) = Rsum xs - INR (length xs) * m.
Proof.
  induction xs as [|x xs IH]; [simpl; ring|].
  rewrite fmap_cons. cbn [Rsum foldr length]. rewrite S_INR.
  unfold Rsum in IH. rewrite IH. ring.
Qed.

Lemma mean_centered xs : xs <> [] -> Rsum ((fun x => x - mean xs) <$> xs) = 0.
Proof.
  intros Hne. rewrite Rsum_centered. unfold mean.
  pose proof (INR_length_pos xs Hne). field. lra.
Qed.

(** Squared deviations from [c] against squared deviations from [m]. *)
Lemma sq_shift xs m c :
  Rsum ((fun x => (x - c) * (x - c)) <$> xs)
  = Rsum ((fun x => (x - m) * (x - m)) <$> xs)
    + 2 * (m - c) * Rsum ((fun x => x - m) <$> xs)
    + INR (length xs) * ((m - c) * (m - c)).
Proof.
  induction xs as [|x xs IH]; [simpl; ring|].
  rewrite !fmap_cons. cbn [Rsum foldr length]. rewrite S_INR.
  unfold Rsum in IH. rewrite IH. ring.
Qed.

(** The mean minimises the sum of squared deviations. *)
Lemma sq_dev_minimal xs c :
  xs <> [] -> sq_dev xs <= Rsum ((fun x => (x - c) * (x - c)) <$> xs).
Proof.
  intros Hne. rewrite (sq_shift xs (mean xs) c), mean_centered by exact Hne.
  unfold sq_dev. pose proof (INR_length_pos xs Hne).
  assert (0 <= INR (length xs) * ((mean xs - c) * (mean xs - c))).
  { apply Rmult_le_pos; [lra|]. apply (Rle_0_sqr (mean xs - c)). }
  lra.
Qed.

Lemma Rsum_le (f g : R -> R) xs :
  (forall x, f x <= g x) -> Rsum (f <$> xs) <= Rsum (g <$> xs).
Proof.
  intros Hfg. induction xs as [|x xs IH]; [simpl; lra|].
  rewrite !fmap_cons. cbn [Rsum foldr]. unfold Rsum in IH.
  specialize (Hfg x). lra.
Qed.

Lemma sq_dev_nonneg xs : 0 <= sq_dev xs.
Proof.
  unfold sq_dev. generalize (mean xs). intros m.
  induction xs as [|x xs IH]; [simpl; lra|].
  rewrite fmap_cons. cbn [Rsum foldr]. unfold Rsum in IH.
  pose proof (Rle_0_sqr (x - m)) as Hsq. unfold Rsqr in Hsq. lra.
Qed.

(** A map that moves values no further apart does not increase the sum of
    squared deviations. *)
Lemma sq_dev_contracts (f : R -> R) xs :
  (forall x y, (f x - f y) * (f x - f y) <= (x - y) * (x - y)) ->
  xs <> [] -> sq_dev (f <$> xs) <= sq_dev xs.
Proof.
  intros Hf Hne.
  assert (Hne' : f <$> xs <> []) by (destruct xs; [contradiction|discriminate]).
  eapply Rle_trans; [apply (sq_dev_minimal _ (f (mean xs)) Hne')|].
  rewrite <- list_fmap_compose. unfold sq_dev.
  apply Rsum_le. intros x. unfold compose. apply Hf.
Qed.

(** The population standard deviation of a capped column is at most the
    one of the column. *)
Lemma std_pop_capped c s v v' :
  0 <= c -> std_pop s = Some v ->
  std_pop (clip (Some (- c)) (Some c) s) = Some v' -> v' <= v.
Proof.
  intros Hc. rewrite clip_symmetric by exact Hc. unfold std_pop.
  rewrite dropna_fmap.
  destruct (dropna s) as [|x xs] eqn:Hxs; [discriminate|].
  rewrite fmap_cons. intros [= <-] [= <-].
  rewrite <- fmap_cons, length_fmap.
  assert (Hne : x :: xs <> []) by discriminate.
  pose proof (INR_length_pos _ Hne) as Hn.
  pose proof (sq_dev_contracts (cap_at c) (x :: xs)
                (fun a b => cap_at_contracts c a b Hc) Hne) as Hle.
  pose proof (sq_dev_nonneg (cap_at c <$> x :: xs)) as H0.
  apply sqrt_le_1_alt.
  apply Rmult_le_compat_r; [|exact Hle].
  apply Rlt_le, Rinv_0_lt_compat, Hn.
Qed.

End DeviationFacts.

Section WinsorizeFacts.
Import Pandas.
Local Open Scope R_scope.
Implicit Types (s : list (option R)) (sigma c x : R).

Lemma clip_unbounded s : clip None None s = s.
Proof.
  unfold clip. induction s as [|[x|] s IH]; simpl; [reflexivity| |];
    f_equal; exact IH.
Qed.

Lemma std_pop_is_Some s : dropna s <> [] -> is_Some (std_pop s).
Proof. unfold std_pop. destruct (dropna s); [contradiction|eauto]. Qed.

(** The three [winsorize] functions agree as soon as [sigma] is not zero. *)
Lemma winsorize_agree s sigma :
  sigma <> 0 ->
  ClipLevel.winsorize s sigma = HorizonSweep.winsorize s sigma /\
  PerEmotion.winsorize s sigma = HorizonSweep.winsorize s sigma.
Proof.
  intros Hs. unfold ClipLevel.winsorize, PerEmotion.winsorize.
  destruct (Req_dec_T sigma 0); [contradiction|]. split; reflexivity.
Qed.

(** What [winsorize] of the horizon sweep is, by the standard deviation. *)
Lemma winsorize_with_std s sigma v :
  0 <= sigma -> std_pop s = Some v ->
  HorizonSweep.winsorize s sigma
  = (fun o : option R => cap_at (sigma * v) <$> o) <$> s.
Proof.
  intros Hs Hv. unfold HorizonSweep.winsorize. rewrite Hv. simpl.
  apply clip_symmetric. pose proof (std_pop_nonneg s v Hv). nra.
Qed.

Lemma winsorize_without_std s sigma :
  std_pop s = None -> HorizonSweep.winsorize s sigma = s.
Proof.
  intros Hv. unfold HorizonSweep.winsorize. rewrite Hv. apply clip_unbounded.
Qed.

(** With [sigma = 0] the horizon sweep caps at zero: every value of a
    column that has one becomes 0. *)
Lemma horizon_winsorize_zero s :
  dropna s <> [] ->
  HorizonSweep.winsorize s 0 = (fun o : option R => (fun _ => 0) <$> o) <$> s.
Proof.
  intros Hne. destruct (std_pop_is_Some s Hne) as [v Hv].
  rewrite (winsorize_with_std s 0 v (Rle_refl 0) Hv), Rmult_0_l.
  apply list_fmap_ext. intros _ [x|] _; [|reflexivity]. simpl. f_equal.
  pose proof (cap_at_bounds 0 x (Rle_refl 0)). lra.
Qed.

End WinsorizeFacts.

Section WinsorizeResults.
Import Pandas.
Local Open Scope R_scope.

Lemma std_pop_pair a :
  0 <= a -> std_pop [Some a; Some (- a)] = Some a.
Proof.
  intros Ha. apply std_pop_of_square; [discriminate|exact Ha|].
  unfold sq_dev, mean, dropna. simpl. field.
Qed.

Lemma winsorize_pair a sigma :
  0 <= a -> 0 <= sigma <= 1 ->
  HorizonSweep.winsorize [Some a; Some (- a)] sigma
  = [Some (sigma * a); Some (- (sigma * a))].
Proof.
  intros Ha Hs.
  rewrite (winsorize_with_std _ sigma a (proj1 Hs) (std_pop_pair a Ha)).
  simpl. rewrite cap_at_above by nra. rewrite cap_at_below by nra. reflexivity.
Qed.

(** C7.  With [sigma = 0] the two command-line scripts return the column
    unchanged, whereas the horizon sweep caps at zero: the column (1, -2)
    becomes (0, 0). *)
Theorem winsorize_sigma_zero :
  (forall s, ClipLevel.winsorize s 0 = s) /\
  (forall s, PerEmotion.winsorize s 0 = s) /\
  HorizonSweep.winsorize [Some 1; Some (-2)] 0 = [Some 0; Some 0] /\
  HorizonSweep.winsorize [Some 1; Some (-2)] 0 <> [Some 1; Some (-2)].
Proof.
  assert (H0 : HorizonSweep.winsorize [Some 1; Some (-2)] 0 = [Some 0; Some 0]).
  { rewrite horizon_winsorize_zero; [reflexivity|discriminate]. }
  repeat split.
  - intros s. unfold ClipLevel.winsorize.
    destruct (Req_dec_T 0 0) as [_|Hne]; [reflexivity|contradiction].
  - intros s. unfold PerEmotion.winsorize.
    destruct (Req_dec_T 0 0) as [_|Hne]; [reflexivity|contradiction].
  - exact H0.
  - rewrite H0. intros [= H _]. lra.
Qed.

(** C8 as stated fails.  The column (1, -1) with [sigma = 1/2]: the
    deviation is 1, the first pass caps at 1/2; the deviation of the capped column is 1/2, so a second
    pass caps at 1/4. *)
Theorem winsorize_twice_differs :
  0 < 1 / 2 /\
  HorizonSweep.winsorize (HorizonSweep.winsorize [Some 1; Some (-1)] (1 / 2)) (1 / 2)
  <> HorizonSweep.winsorize [Some 1; Some (-1)] (1 / 2).
Proof.
  split; [lra|].
  replace (-1) with (Ropp 1) by lra.
  rewrite (winsorize_pair 1 (1 / 2)) by lra.
  rewrite (winsorize_pair (1 / 2 * 1) (1 / 2)) by lra.
  intros [= H _]. lra.
Qed.

(** C8, amended.  For every column and every [sigma > 0]: capping the
    once-capped column again at the same bound, [sigma] times the
    population standard deviation of the original column, changes nothing;
    the cap keeps the values within the bound and replaces the values
    beyond it by the bound; and the bound recomputed from the capped column
    is at most the first one. *)
Theorem winsorize_same_bound_idempotent (s : list (option R)) (sigma : R) :
  0 < sigma ->
  let cap := Rmult sigma <$> std_pop s in
  let w := HorizonSweep.winsorize s sigma in
  clip (Ropp <$> cap) cap w = w /\
  (forall c i x, cap = Some c -> s !! i = Some (Some x) ->
     exists y, w !! i = Some (Some y) /\ - c <= y <= c /\
               (c < x -> y = c) /\ (x < - c -> y = - c) /\
               (- c <= x <= c -> y = x)) /\
  (forall v v', std_pop s = Some v -> std_pop w = Some v' ->
     sigma * v' <= sigma * v).
Proof.
  intros Hs cap w. subst cap w.
  destruct (std_pop s) as [v|] eqn:Hv.
  - pose proof (std_pop_nonneg s v Hv) as Hv0.
    assert (Hc : 0 <= sigma * v) by nra.
    rewrite (winsorize_with_std s sigma v (Rlt_le _ _ Hs) Hv). simpl.
    split; [|split].
    + rewrite clip_symmetric by exact Hc. rewrite <- list_fmap_compose.
      apply list_fmap_ext. intros _ [x|] _; [|reflexivity]. simpl.
      now rewrite cap_at_idempotent.
    + intros c i x [= <-] Hi. exists (cap_at (sigma * v) x).
      rewrite list_lookup_fmap, Hi. simpl. split; [reflexivity|].
      split; [apply cap_at_bounds, Hc|]. repeat split.
      * intros Hx. apply cap_at_above; lra.
      * intros Hx. apply cap_at_below; lra.
      * intros Hx. apply cap_at_inside, Hx.
    + intros v0 v' [= <-] Hv'. apply Rmult_le_compat_l; [lra|].
      rewrite <- clip_symmetric in Hv' by exact Hc.
      exact (std_pop_capped (sigma * v) s v v' Hc Hv Hv').
  - rewrite (winsorize_without_std s sigma Hv). simpl.
    split; [apply clip_unbounded|]. split; [discriminate|discriminate].
Qed.

Lemma winsorize_same_bound_idempotent_witness :
  0 < 1 / 2 /\
  clip (Ropp <$> (Rmult (1 / 2) <$> std_pop [Some 1; Some (-1)]))
       (Rmult (1 / 2) <$> std_pop [Some 1; Some (-1)])
       (HorizonSweep.winsorize [Some 1; Some (-1)] (1 / 2))
  = HorizonSweep.winsorize [Some 1; Some (-1)] (1 / 2).
Proof.
  assert (H : 0 < 1 / 2) by lra.
  split; [exact H|].
  exact (proj1 (winsorize_same_bound_idempotent [Some 1; Some (-1)] (1 / 2) H)).
Defined.

End WinsorizeResults.

(** * Further properties of the code *)

(** ** Filtering, sorting and duplicates *)

Section FilterFacts.
Import Pandas.
Context {V : Type}.
Implicit Types (rows s : Series V) (r : Z * V) (seen : gset Z).

Lemma insert_row_front r s :
  Forall (fun x => r.1 <= x.1) s -> insert_row r s = r :: s.
Proof.
  intros Hall. destruct Hall as [|a s Ha _]; [reflexivity|].
  simpl. now rewrite (proj2 (Z.leb_le r.1 a.1) Ha).
Qed.

Lemma Forall_filter_keep (P : Z * V -> Prop) (f : Z * V -> bool) s :
  Forall P s -> Forall P (List.filter f s).
Proof.
  induction 1 as [|a s Ha _ IH]; simpl; [constructor|].
  destruct (f a); [constructor; assumption|assumption].
Qed.

Lemma filter_insert_row (f : Z * V -> bool) r s :
  StronglySorted key_le s ->
  List.filter f (insert_row r s)
  = if f r then insert_row r (List.filter f s) else List.filter f s.
Proof.
  induction 1 as [|a s Hs IH Hall]; simpl.
  - destruct (f r); reflexivity.
  - destruct (Z.leb_spec r.1 a.1) as [Hle|Hgt]; simpl.
    + destruct (f r) eqn:Hr, (f a) eqn:Ha; simpl; rewrite ?Hr, ?Ha; try reflexivity.
      * now rewrite (proj2 (Z.leb_le r.1 a.1) Hle).
      * symmetry. apply insert_row_front, Forall_filter_keep.
        eapply Forall_impl; [exact Hall|]. unfold key_le. intros; lia.
    + destruct (f a) eqn:Ha; rewrite IH; destruct (f r); simpl;
        rewrite ?(proj2 (Z.leb_gt r.1 a.1) Hgt); reflexivity.
Qed.

(** A mask commutes with the sort. *)
Lemma filter_sort_values (f : Z * V -> bool) rows :
  List.filter f (sort_values rows) = sort_values (List.filter f rows).
Proof.
  induction rows as [|a rows IH]; [reflexivity|].
  change (sort_values (a :: rows)) with (insert_row a (sort_values rows)).
  rewrite filter_insert_row by apply sort_values_sorted. simpl.
  destruct (f a); [|exact IH].
  change (sort_values (a :: List.filter f rows))
    with (insert_row a (sort_values (List.filter f rows))).
  now rewrite IH.
Qed.

(** On a sorted series the label slice is the mask [label <= t]. *)
Lemma loc_upto_filter t s :
  StronglySorted key_le s -> loc_upto t s = List.filter (fun r => r.1 <=? t) s.
Proof.
  induction 1 as [|a s Hs IH Hall]; simpl; [reflexivity|].
  destruct (Z.leb_spec a.1 t) as [Hle|Hgt]; [now rewrite IH|].
  clear IH Hs. induction Hall as [|b s Hb _ IH]; [reflexivity|].
  simpl. unfold key_le in Hb. rewrite (proj2 (Z.leb_gt b.1 t)) by lia. exact IH.
Qed.

Lemma drop_duplicates_seen_more (X seen : gset Z) rows :
  Forall (fun r => r.1 ∉ X) rows ->
  drop_duplicates_seen (X ∪ seen) rows = drop_duplicates_seen seen rows.
Proof.
  intros Hall. revert seen. induction Hall as [|a rows Ha _ IH]; intros seen;
    simpl; [reflexivity|].
  destruct (decide (a.1 ∈ seen)) as [Hin|Hnin].
  - rewrite decide_True by (apply elem_of_union; now right). apply IH.
  - rewrite decide_False by (rewrite elem_of_union; tauto).
    f_equal. rewrite <- (IH ({[a.1]} ∪ seen)). f_equal.
    rewrite (assoc_L (∪)), (comm_L (∪) {[a.1]} X), <- (assoc_L (∪)). reflexivity.
Qed.

(** A mask on the labels commutes with dropping duplicates. *)
Lemma drop_duplicates_seen_filter (g : Z -> bool) seen rows :
  drop_duplicates_seen seen (List.filter (fun r => g r.1) rows)
  = List.filter (fun r => g r.1) (drop_duplicates_seen seen rows).
Proof.
  revert seen. induction rows as [|a rows IH]; intros seen; simpl; [reflexivity|].
  destruct (g a.1) eqn:Hg; simpl.
  - destruct (decide (a.1 ∈ seen)); simpl; rewrite ?Hg, IH; reflexivity.
  - destruct (decide (a.1 ∈ seen)); simpl; rewrite ?Hg; [apply IH|].
    rewrite <- IH. symmetry. apply drop_duplicates_seen_more.
    apply Forall_forall. intros r Hr.
    apply list_elem_of_In, filter_In in Hr as [_ Hr].
    rewrite elem_of_singleton. intros Heq. rewrite Heq in Hr. congruence.
Qed.

(** Every label of the rows survives the removal of duplicates. *)
Lemma drop_duplicates_seen_index seen rows k :
  k ∈ index (drop_duplicates_seen seen rows) <-> k ∈ index rows /\ k ∉ seen.
Proof.
  unfold index. revert seen. induction rows as [|a rows IH]; intros seen; simpl.
  - rewrite elem_of_nil. tauto.
  - destruct (decide (a.1 ∈ seen)) as [Hin|Hnin].
    + rewrite IH, elem_of_cons. split; [tauto|].
      intros [[->|H] Hk]; [contradiction|tauto].
    + rewrite !fmap_cons, !elem_of_cons, IH, elem_of_union, elem_of_singleton.
      split; [intros [->|[H1 H2]]; tauto|].
      intros [[->|H] Hk]; [tauto|].
      destruct (decide (k = a.1)); tauto.
Qed.

End FilterFacts.

(** ** The price cache and the as-of lookup, continued *)

Lemma asof_at_label (s : list (Z * Q)) k v :
  Pandas.ordered s -> (k, v) ∈ s -> HorizonSweep.asof s k = Some v.
Proof.
  intros Hord Hin. apply list_elem_of_lookup in Hin as [i Hi].
  unfold HorizonSweep.asof, Pandas.iloc_last.
  rewrite (loc_upto_at s i (k, v) k Hord Hi (Z.le_refl k)).
  - now rewrite (last_take_S _ _ _ Hi).
  - intros r' Hr'.
    exact (ordered_lookup_lt s i (S i) (k, v) r' Hord Hi Hr' (Nat.lt_succ_diag_r i)).
Qed.

Lemma tick_series_first_row_in sym pre tk post :
  let sec := fun x => ts_event x / 1000000000 in
  let stored := fun x => if String.eqb sym "ES" then (price x / 100)%Q else price x in
  Forall (fun x => sec x <> sec tk) pre ->
  (sec tk, stored tk) ∈ HorizonSweep.tick_series sym (pre ++ tk :: post).
Proof.
  intros sec stored Hpre.
  unfold HorizonSweep.tick_series. rewrite sort_values_perm.
  rewrite !fmap_app, !fmap_cons, zip_with_app by (now rewrite !length_fmap).
  simpl. apply (drop_duplicates_seen_first ∅ _ (sec tk, stored tk)).
  - apply not_elem_of_empty.
  - unfold Pandas.index. rewrite fst_zip by (rewrite !length_fmap; lia).
    simpl. intros Hel. apply list_elem_of_fmap in Hel as (x & Hx & Hel).
    rewrite Forall_forall in Hpre. exact (Hpre x Hel (eq_sym Hx)).
Qed.

Lemma filter_zip_ticks (f : Tick -> Z) (p : Tick -> Q) (t : Z) ticks :
  List.filter (fun r : Z * Q => r.1 <=? t) (zip (f <$> ticks) (p <$> ticks))
  = zip (f <$> List.filter (fun tk => f tk <=? t) ticks)
        (p <$> List.filter (fun tk => f tk <=? t) ticks).
Proof.
  induction ticks as [|tk ticks IH]; [reflexivity|].
  simpl. destruct (f tk <=? t); simpl; [f_equal|]; exact IH.
Qed.

Lemma filter_all_true {A} (f : A -> bool) (l : list A) :
  Forall (fun x => f x = true) l -> List.filter f l = l.
Proof.
  induction 1 as [|a l Ha _ IH]; simpl; [reflexivity|]. now rewrite Ha, IH.
Qed.

(** X1.  The price cache has an entry under (meeting, asset) exactly when
    the asset is ES or ZT, the meeting is among the ids given and a tick
    file exists for the pair; the entry is the per-second series of that
    file.  A meeting without a file is skipped and leaves no entry. *)
Theorem price_cache_entry (tick_file : string -> string -> option (list Tick))
    (meeting_ids : list string) (m s : string) (series : list (Z * Q)) :
  HorizonSweep.build_price_cache tick_file meeting_ids !! (m, s) = Some series <->
  s ∈ HorizonSweep.ASSETS /\ m ∈ meeting_ids /\
  exists ticks, tick_file s m = Some ticks /\ series = HorizonSweep.tick_series s ticks.
Proof.
  rewrite build_price_cache_lookup.
  destruct (decide (s ∈ HorizonSweep.ASSETS /\ m ∈ meeting_ids)) as [[Hs Hm]|Hn].
  - destruct (tick_file s m) as [ticks|] eqn:Hf; simpl.
    + split.
      * intros [= <-]. repeat split; try assumption. eauto.
      * intros (_ & _ & ticks' & [= <-] & ->). reflexivity.
    + split; [discriminate|]. intros (_ & _ & ticks' & Hd & _). discriminate.
  - split; [discriminate|]. intros (Hs & Hm & _). exfalso. apply Hn. split; assumption.
Qed.

(** X2.  Every series of the price cache has strictly increasing seconds,
    and its seconds are exactly the seconds (nanoseconds floor-divided by
    1e9) in which the file has a tick: no second with a tick is lost and
    none is made up. *)
Theorem price_cache_series_seconds (tick_file : string -> string -> option (list Tick))
    (meeting_ids : list string) (m s : string) (series : list (Z * Q)) :
  HorizonSweep.build_price_cache tick_file meeting_ids !! (m, s) = Some series ->
  Pandas.ordered series /\
  exists ticks, tick_file s m = Some ticks /\
    forall k, k ∈ Pandas.index series <->
              exists tk, tk ∈ ticks /\ k = ts_event tk / 1000000000.
Proof.
  rewrite build_price_cache_lookup.
  destruct (decide _) as [_|_]; [|discriminate].
  destruct (tick_file s m) as [ticks|]; [|discriminate].
  simpl. intros [= <-]. split; [apply tick_series_ordered|].
  exists ticks. split; [reflexivity|]. intros k.
  unfold HorizonSweep.tick_series, Pandas.index, Pandas.drop_duplicates.
  rewrite sort_values_perm.
  match goal with
  | |- context [Pandas.drop_duplicates_seen ∅ ?rows] =>
      pose proof (drop_duplicates_seen_index ∅ rows k) as Hk
  end.
  unfold Pandas.index in Hk. rewrite Hk. clear Hk.
  rewrite fst_zip by (rewrite !length_fmap; lia).
  rewrite list_elem_of_fmap. split.
  - intros [(tk & -> & Htk) _]. eauto.
  - intros (tk & Htk & ->). split; [eauto|apply not_elem_of_empty].
Qed.

Lemma price_cache_series_seconds_witness :
  Pandas.ordered [(1, 100%Q)].
Proof.
  assert (H : HorizonSweep.build_price_cache Scenario.tick_store
                ["2023-11-01"%string] !! ("2023-11-01", "ZT")%string
              = Some [(1, 100%Q)]) by (vm_compute; reflexivity).
  exact (proj1 (price_cache_series_seconds _ _ _ _ _ H)).
Defined.

(** X3.  At a second in which the file has ticks, the as-of price of the
    cache series is the stored price of the first of those ticks in row
    order (divided by 100 for ES), whatever the later ticks of that second
    are. *)
Theorem asof_first_tick_of_second (sym : string) (pre : list Tick) (tk : Tick)
    (post : list Tick) :
  Forall (fun x => ts_event x / 1000000000 <> ts_event tk / 1000000000) pre ->
  HorizonSweep.asof (HorizonSweep.tick_series sym (pre ++ tk :: post))
    (ts_event tk / 1000000000)
  = Some (if String.eqb sym "ES" then (price tk / 100)%Q else price tk).
Proof.
  intros Hpre. apply asof_at_label; [apply tick_series_ordered|].
  apply (tick_series_first_row_in sym pre tk post Hpre).
Qed.

Lemma asof_first_tick_of_second_witness :
  HorizonSweep.asof (HorizonSweep.tick_series "ZT" Scenario.zt_same_second) 1
  = Some 100%Q.
Proof.
  exact (asof_first_tick_of_second "ZT" []
           (mkTick 1000000000 "ZTZ3" 100) [mkTick 1500000000 "ZTZ3" 101]
           (Forall_nil_2 _)).
Defined.

(** X4.  The as-of price at [t] never looks ahead: the ticks of the file
    whose second is after [t] can be removed, wherever they stand, without
    changing the result. *)
Theorem asof_ignores_later_ticks (sym : string) (ticks : list Tick) (t : Z) :
  HorizonSweep.asof (HorizonSweep.tick_series sym ticks) t
  = HorizonSweep.asof
      (HorizonSweep.tick_series sym
         (List.filter (fun tk => ts_event tk / 1000000000 <=? t) ticks)) t.
Proof.
  unfold HorizonSweep.asof, HorizonSweep.tick_series, Pandas.drop_duplicates.
  rewrite !loc_upto_filter by apply sort_values_sorted.
  rewrite !filter_sort_values.
  rewrite <- !(drop_duplicates_seen_filter (fun k => k <=? t)).
  rewrite !filter_zip_ticks.
  rewrite (filter_all_true _ (List.filter _ ticks)); [reflexivity|].
  apply Forall_forall. intros tk Htk.
  apply list_elem_of_In, filter_In in Htk as [_ Htk]. exact Htk.
Qed.

(** X5.  With a horizon [h >= 0] the replacement of a missing forward
    price by [p0] never happens: whenever a delta is produced, both as-of
    prices exist and the delta is their difference. *)
Theorem forward_delta_nonneg_horizon (c : HorizonSweep.cache_t)
    (r : HorizonSweep.ReturnRow) (series : list (Z * Q)) (t0 h : Z) (d : Q) :
  c !! (HorizonSweep.meeting_id r, HorizonSweep.sym r) = Some series ->
  HorizonSweep.timestamp_utc r = Some t0 ->
  0 <= h ->
  HorizonSweep.forward_delta c r h = Some d ->
  exists p0 p1,
    HorizonSweep.asof series t0 = Some p0 /\
    HorizonSweep.asof series (t0 + h) = Some p1 /\
    d = (p1 - p0)%Q.
Proof.
  intros Hc Hts Hh. unfold HorizonSweep.forward_delta, HorizonSweep.sec_of.
  rewrite Hc, Hts.
  destruct (HorizonSweep.asof series t0) as [p0|] eqn:H0; [|discriminate].
  destruct (asof_available_later series t0 (t0 + h) ltac:(lia)) as [p1 H1].
  { rewrite H0. eauto. }
  rewrite H1. intros [= <-]. eauto.
Qed.

Lemma forward_delta_nonneg_horizon_witness :
  exists p0 p1,
    HorizonSweep.asof Scenario.day_series Scenario.t_1430 = Some p0 /\
    HorizonSweep.asof Scenario.day_series (Scenario.t_1430 + 3600) = Some p1 /\
    (99.95 - 99.98)%Q = (p1 - p0)%Q.
Proof.
  exact (forward_delta_nonneg_horizon Scenario.day_cache Scenario.day_row
           Scenario.day_series Scenario.t_1430 3600 (99.95 - 99.98)%Q
           eq_refl eq_refl ltac:(lia) eq_refl).
Defined.

(** X6.  Deltas add up along the time axis: for a row anchored at [t0]
    with a price and horizons [h1, h2 >= 0], the delta over [h1 + h2] is
    the delta over [h1] plus the delta over [h2] of a row of the same
    meeting and asset anchored at [t0 + h1]. *)
Theorem forward_delta_telescopes (c : HorizonSweep.cache_t)
    (r r' : HorizonSweep.ReturnRow) (t0 h1 h2 : Z) (d1 : Q) :
  HorizonSweep.meeting_id r' = HorizonSweep.meeting_id r ->
  HorizonSweep.sym r' = HorizonSweep.sym r ->
  HorizonSweep.timestamp_utc r = Some t0 ->
  HorizonSweep.timestamp_utc r' = Some (t0 + h1) ->
  0 <= h1 -> 0 <= h2 ->
  HorizonSweep.forward_delta c r h1 = Some d1 ->
  exists d2 d12,
    HorizonSweep.forward_delta c r' h2 = Some d2 /\
    HorizonSweep.forward_delta c r (h1 + h2) = Some d12 /\
    (d12 == d1 + d2)%Q.
Proof.
  intros Hm Hs Hts Hts' Hh1 Hh2.
  unfold HorizonSweep.forward_delta, HorizonSweep.sec_of.
  rewrite Hm, Hs, Hts, Hts'.
  destruct (c !! _) as [series|]; [|discriminate].
  destruct (HorizonSweep.asof series t0) as [p0|] eqn:H0; [|discriminate].
  destruct (asof_available_later series t0 (t0 + h1) ltac:(lia)) as [p1 H1].
  { rewrite H0. eauto. }
  destruct (asof_available_later series t0 (t0 + h1 + h2) ltac:(lia)) as [p2 H2].
  { rewrite H0. eauto. }
  rewrite H1, H2, Z.add_assoc, H2. intros [= <-].
  exists (p2 - p1)%Q, (p2 - p0)%Q. repeat split. ring.
Qed.

Lemma forward_delta_telescopes_witness :
  exists d2 d12,
    HorizonSweep.forward_delta Scenario.day_cache
      (HorizonSweep.mkRow "2023-11-01" 1 "ZT" (Some (Scenario.t_1430 + 601)) 99.95)
      3000 = Some d2 /\
    HorizonSweep.forward_delta Scenario.day_cache Scenario.day_row (601 + 3000)
      = Some d12 /\
    (d12 == (99.95 - 99.98) + d2)%Q.
Proof.
  exact (forward_delta_telescopes Scenario.day_cache Scenario.day_row
           (HorizonSweep.mkRow "2023-11-01" 1 "ZT" (Some (Scenario.t_1430 + 601)) 99.95)
           Scenario.t_1430 601 3000 (99.95 - 99.98)%Q
           eq_refl eq_refl eq_refl eq_refl ltac:(lia) ltac:(lia) eq_refl).
Defined.

(** X7.  The delta of a row is unavailable (NaN) exactly when the cache
    has no series for its meeting and asset, or its timestamp is NaN, or
    the series has no tick at or before the anchor (it is empty or starts
    later); this does not depend on the horizon. *)
Theorem forward_delta_unavailable (c : HorizonSweep.cache_t)
    (r : HorizonSweep.ReturnRow) (h : Z) :
  HorizonSweep.forward_delta c r h = None <->
  match c !! (HorizonSweep.meeting_id r, HorizonSweep.sym r),
        HorizonSweep.timestamp_utc r with
  | Some series, Some t0 => forall x, head series = Some x -> t0 < x.1
  | _, _ => True
  end.
Proof.
  unfold HorizonSweep.forward_delta, HorizonSweep.sec_of.
  destruct (c !! _) as [series|]; [|tauto].
  destruct (HorizonSweep.timestamp_utc r) as [t0|]; [|tauto].
  unfold HorizonSweep.asof at 1, Pandas.iloc_last.
  destruct series as [|x series]; simpl.
  - split; [intros _ y Hy; discriminate|reflexivity].
  - destruct (Z.leb_spec x.1 t0) as [Hle|Hgt].
    + destruct (last (x :: Pandas.loc_upto t0 series)) as [y|] eqn:Hl.
      * simpl. split; [discriminate|]. intros H. specialize (H x eq_refl). lia.
      * apply last_None in Hl. discriminate.
    + simpl. split; [|reflexivity]. intros _ y [= <-]. exact Hgt.
Qed.

(** ** The ZQ reader and the window lookup *)

Section WindowFacts.
Import Pandas.
Context {V : Type}.
Implicit Types (s : Series V) (r : Z * V).

Lemma sorted_last_max s x :
  StronglySorted key_le s -> last s = Some x -> Forall (fun r => r.1 <= x.1) s.
Proof.
  induction 1 as [|a s Hs IH Hall]; [constructor|].
  intros Hlast. destruct s as [|b s].
  - injection Hlast as <-. repeat constructor. lia.
  - change (last (b :: s) = Some x) in Hlast. specialize (IH Hlast).
    constructor; [|exact IH].
    apply last_Some_elem_of in Hlast. rewrite Forall_forall in Hall.
    exact (Hall x Hlast).
Qed.

Lemma filter_sorted (f : Z * V -> bool) s :
  StronglySorted key_le s -> StronglySorted key_le (List.filter f s).
Proof.
  induction 1 as [|a s Hs IH Hall]; simpl; [constructor|].
  destruct (f a); [|exact IH]. constructor; [exact IH|].
  apply Forall_filter_keep, Hall.
Qed.

Lemma sort_values_of_sorted s : StronglySorted key_le s -> sort_values s = s.
Proof.
  induction 1 as [|a s Hs IH Hall]; [reflexivity|].
  change (sort_values (a :: s)) with (insert_row a (sort_values s)).
  rewrite IH. apply insert_row_front. exact Hall.
Qed.

Lemma loc_between_elem a b s r :
  r ∈ loc_between a b s <-> r ∈ s /\ a <= r.1 <= b.
Proof.
  unfold loc_between. rewrite !list_elem_of_In, filter_In, andb_true_iff.
  rewrite !Z.leb_le. tauto.
Qed.

End WindowFacts.

(** X9.  On a series sorted by time, [last_price_in_window] returns nothing
    exactly when no row lies in the window (in particular when the window
    is empty), and otherwise the price of a row of the window whose
    timestamp no row of the window exceeds. *)
Theorem last_price_in_window_spec (s : list (Z * Q)) (a b : Z) :
  StronglySorted Pandas.key_le s ->
  match ZqSurprise.last_price_in_window s a b with
  | None => forall r, r ∈ s -> ~ (a <= r.1 <= b)
  | Some p =>
      exists k, (k, p) ∈ s /\ a <= k <= b /\
                forall r, r ∈ s -> a <= r.1 <= b -> r.1 <= k
  end.
Proof.
  intros Hs. unfold ZqSurprise.last_price_in_window, Pandas.iloc_last.
  destruct (last (Pandas.loc_between a b s)) as [[k p]|] eqn:Hlast; simpl.
  - exists k. pose proof (last_Some_elem_of _ _ Hlast) as Hin.
    apply loc_between_elem in Hin as [Hin Hk]. simpl in Hk.
    split; [exact Hin|]. split; [exact Hk|].
    intros r Hr Hw.
    pose proof (sorted_last_max _ _ (filter_sorted _ s Hs) Hlast) as Hmax.
    rewrite Forall_forall in Hmax.
    exact (Hmax r (proj2 (loc_between_elem a b s r) (conj Hr Hw))).
  - apply last_None in Hlast. intros r Hr Hw.
    assert (Hin : r ∈ Pandas.loc_between a b s)
      by (apply loc_between_elem; split; assumption).
    rewrite Hlast in Hin. inversion Hin.
Qed.

Lemma last_price_in_window_spec_witness :
  exists k, (k, 99.98%Q) ∈ Scenario.day_series /\
            Scenario.t_1430 - 10 <= k <= Scenario.t_1430 + 10 /\
            forall r, r ∈ Scenario.day_series ->
                      Scenario.t_1430 - 10 <= r.1 <= Scenario.t_1430 + 10 -> r.1 <= k.
Proof.
  assert (Hs : StronglySorted Pandas.key_le Scenario.day_series).
  { unfold Scenario.day_series, Pandas.key_le, Scenario.t_1430.
    repeat constructor; simpl; lia. }
  exact (last_price_in_window_spec Scenario.day_series
           (Scenario.t_1430 - 10) (Scenario.t_1430 + 10) Hs).
Defined.

Lemma snd_ts_pairs (l : list Tick) :
  snd <$> ((fun tk => (ts_event tk, tk)) <$> l) = l.
Proof.
  induction l as [|tk l IH]; [reflexivity|]. rewrite !fmap_cons. simpl.
  f_equal. exact IH.
Qed.

(** X8.  [read_ticks] returns the rows of the file whose symbol matches the
    single-leg ZQ pattern, each as many times as it occurs, in
    non-decreasing order of event time. *)
Theorem read_ticks_sorted_single_legs (raw : list Tick) :
  ZqSurprise.read_ticks raw
    ≡ₚ List.filter (fun tk => ZqSurprise.match_zq_single_leg (symbol tk)) raw /\
  StronglySorted (fun x y => ts_event x <= ts_event y) (ZqSurprise.read_ticks raw).
Proof.
  unfold ZqSurprise.read_ticks, ZqSurprise.sort_by_ts_event.
  set (kept := List.filter _ raw).
  set (pairs := (fun tk => (ts_event tk, tk)) <$> kept).
  assert (Hperm : Pandas.sort_values pairs ≡ₚ pairs) by apply sort_values_perm.
  assert (Hsorted : StronglySorted Pandas.key_le (Pandas.sort_values pairs))
    by apply sort_values_sorted.
  assert (Hform : Forall (fun r : Z * Tick => r.1 = ts_event r.2)
                         (Pandas.sort_values pairs)).
  { rewrite Hperm. unfold pairs. apply Forall_fmap, Forall_forall.
    intros tk _. reflexivity. }
  assert (Hsnd : snd <$> Pandas.sort_values pairs ≡ₚ kept).
  { rewrite Hperm. unfold pairs. now rewrite snd_ts_pairs. }
  split; [exact Hsnd|].
  clear Hperm Hsnd. induction Hsorted as [|r l Hl IH Hall]; [constructor|].
  apply Forall_cons in Hform as [Hr Hform].
  rewrite fmap_cons. constructor; [apply IH, Hform|].
  rewrite Forall_fmap. rewrite Forall_forall in Hall, Hform |- *.
  intros x Hx. simpl. specialize (Hall x Hx). specialize (Hform x Hx).
  unfold Pandas.key_le in Hall. lia.
Qed.

(** ** Candidate symbols *)

Section CandidateFacts.
Import Calendar ZqSurprise.

Lemma digit_cases (k : Z) :
  0 <= k < 10 ->
  k = 0 \/ k = 1 \/ k = 2 \/ k = 3 \/ k = 4 \/ k = 5 \/ k = 6 \/ k = 7 \/
  k = 8 \/ k = 9.
Proof. lia. Qed.

Lemma str_of_digit (k : Z) :
  0 <= k < 10 -> exists c, str_of_int k = String c "" /\ is_digit c = true.
Proof.
  intros Hk. apply digit_cases in Hk.
  repeat (destruct Hk as [->|Hk]; [eexists; split; reflexivity|]).
  subst. eexists. split; reflexivity.
Qed.

Lemma MONTH_CODE_letter (m : Z) :
  1 <= m <= 12 ->
  exists c, MONTH_CODE !! m = Some (String c "") /\ is_upper c = true.
Proof.
  intros Hm. apply month_cases in Hm.
  repeat (destruct Hm as [->|Hm]; [eexists; split; vm_compute; reflexivity|]).
  subst. eexists. split; vm_compute; reflexivity.
Qed.

Lemma MONTH_CODE_next_differs (m : Z) c c' :
  1 <= m <= 11 ->
  MONTH_CODE !! m = Some c -> MONTH_CODE !! (m + 1) = Some c' -> c <> c'.
Proof.
  intros Hm.
  assert (Hc : m = 1 \/ m = 2 \/ m = 3 \/ m = 4 \/ m = 5 \/ m = 6 \/
               m = 7 \/ m = 8 \/ m = 9 \/ m = 10 \/ m = 11) by lia.
  repeat (destruct Hc as [->|Hc];
          [vm_compute; intros [= <-] [= <-]; discriminate|]).
  subst. vm_compute. intros [= <-] [= <-]. discriminate.
Qed.

Lemma single_leg_built c d :
  is_upper c = true -> is_digit d = true ->
  match_zq_single_leg ("ZQ" +:+ String c "" +:+ String d "") = true.
Proof. intros Hc Hd. simpl. now rewrite Hc, Hd. Qed.

End CandidateFacts.

(** X10.  On every calendar date both candidate symbols exist, both have
    the single-leg form that [read_ticks] keeps (so the filter of the
    reader never removes a tick the calculator looks for), and the two are
    different. *)
Theorem candidate_symbols_single_leg (d : date) :
  Calendar.valid_date d ->
  exists pri alt,
    ZqSurprise.zq_symbol_for_meeting d = Some pri /\
    ZqSurprise.zq_next_month_symbol d = Some alt /\
    ZqSurprise.match_zq_single_leg pri = true /\
    ZqSurprise.match_zq_single_leg alt = true /\
    pri <> alt.
Proof.
  intros (Hy & Hm & _).
  destruct (MONTH_CODE_letter (month d) Hm) as (c & Hc & Hcu).
  destruct (str_of_digit (year d mod 10)) as (y & Hyd & Hyy).
  { apply Z.mod_pos_bound. lia. }
  assert (Hpri : ZqSurprise.zq_symbol_for_meeting d
                 = Some ("ZQ" +:+ String c "" +:+ String y "")%string).
  { unfold ZqSurprise.zq_symbol_for_meeting. rewrite Hc, Hyd. reflexivity. }
  exists ("ZQ" +:+ String c "" +:+ String y "")%string.
  destruct (Z.eqb_spec (month d) 12) as [H12|H12].
  - destruct (str_of_digit ((year d + 1) mod 10)) as (y' & Hyd' & Hyy').
    { apply Z.mod_pos_bound. lia. }
    exists ("ZQ" +:+ "F" +:+ String y' "")%string.
    rewrite zq_next_month_symbol_eq, (proj2 (Z.eqb_eq _ _) H12), Hyd'.
    rewrite H12 in Hc. vm_compute in Hc. injection Hc as <-.
    split; [exact Hpri|]. split; [reflexivity|].
    split; [apply single_leg_built; assumption|].
    split; [apply (single_leg_built "F" y' eq_refl Hyy')|].
    simpl. intros [=].
  - destruct (MONTH_CODE_letter (month d + 1) ltac:(lia)) as (c' & Hc' & Hcu').
    exists ("ZQ" +:+ String c' "" +:+ String y "")%string.
    rewrite zq_next_month_symbol_eq, (proj2 (Z.eqb_neq _ _) H12), Hc', Hyd.
    split; [exact Hpri|]. split; [reflexivity|].
    split; [apply single_leg_built; assumption|].
    split; [apply single_leg_built; assumption|].
    simpl. intros [= Heq]. subst c'.
    exact (MONTH_CODE_next_differs (month d) _ _ ltac:(lia) Hc Hc' eq_refl).
Qed.

Lemma candidate_symbols_single_leg_witness :
  exists pri alt,
    ZqSurprise.zq_symbol_for_meeting Scenario.nov_2023 = Some pri /\
    ZqSurprise.zq_next_month_symbol Scenario.nov_2023 = Some alt /\
    ZqSurprise.match_zq_single_leg pri = true /\
    ZqSurprise.match_zq_single_leg alt = true /\
    pri <> alt.
Proof. exact (candidate_symbols_single_leg Scenario.nov_2023 nov_2023_valid). Defined.

(** ** The surprise record, continued *)

Lemma scaling_ratio_bounds (D rem : Z) :
  1 <= rem <= D ->
  (1 <= inject_Z D / inject_Z rem)%Q /\ (inject_Z D / inject_Z rem <= inject_Z D)%Q.
Proof.
  intros Hr. destruct rem as [|p|p]; try lia.
  unfold Qle, Qdiv, Qmult, Qinv, inject_Z. simpl. split; nia.
Qed.

Lemma Qscale_up (x f : Q) : (1 <= f -> 0 <= x -> x <= x * f)%Q.
Proof.
  destruct x as [xn xd], f as [fn fd]. unfold Qle, Qmult. simpl.
  intros Hf Hx. rewrite Pos2Z.inj_mul. nia.
Qed.

Lemma Qscale_down (x f : Q) : (1 <= f -> x <= 0 -> x * f <= x)%Q.
Proof.
  destruct x as [xn xd], f as [fn fd]. unfold Qle, Qmult. simpl.
  intros Hf Hx. rewrite Pos2Z.inj_mul. nia.
Qed.

Section RecordFacts.
Import Calendar ZqSurprise.
Variable strptime_ymd : string -> option date.
Variable eastern_1430_utc : date -> Z.

(** X11.  On a calendar date the record always carries a scaling factor:
    days_remaining lies between 1 and the number of days of the month
    (28 to 31), so the factor D / days_remaining lies between 1 and D and
    the NaN branch for days_remaining <= 0 is never taken. *)
Theorem scaling_factor_bounds day_iso df_day d rec :
  strptime_ymd day_iso = Some d -> valid_date d ->
  compute_for_meeting strptime_ymd eastern_1430_utc day_iso df_day = Some rec ->
  28 <= days_in_month rec <= 31 /\
  1 <= days_remaining_after_announcement rec <= days_in_month rec /\
  exists sf, scaling_factor rec = Some sf /\
             (1 <= sf)%Q /\ (sf <= inject_Z (days_in_month rec))%Q.
Proof.
  intros Hd Hv Hrec.
  destruct (compute_for_meeting_total strptime_ymd eastern_1430_utc
              day_iso df_day d Hd Hv)
    as (pri & alt & D & _ & _ & HD & Hday & Heq).
  rewrite Heq in Hrec. clear Heq.
  remember (first_symbol df_day (eastern_1430_utc d) [pri; alt]) as r eqn:Hr.
  clear Hr. injection Hrec as <-.
  pose proof Hv as (_ & Hm & _).
  destruct (monthrange_days_bounds (year d) (month d) Hm) as (n & Hn & Hb).
  rewrite Hn in HD. injection HD as <-.
  assert (Hsf : (if 0 <? n - day d + 1
                 then Some (inject_Z n / inject_Z (n - day d + 1))%Q else None)
                = Some (inject_Z n / inject_Z (n - day d + 1))%Q).
  { destruct (Z.ltb_spec 0 (n - day d + 1)); [reflexivity|lia]. }
  unfold fill_record.
  destruct r as [[[s p] q]|]; cbn;
    (split; [lia|]); (split; [lia|]);
    rewrite Hsf; eexists; (split; [reflexivity|]);
    apply scaling_ratio_bounds; lia.
Qed.

(** X12.  When the record has prices, delta_implied_bps is 100 times
    (price_pre - price_post), as the header of the script says, so a fall
    of the price is a positive surprise; the target surprise has the same
    sign and at least the same size. *)
Theorem surprise_sign_and_size day_iso df_day d rec p_pre p_post :
  strptime_ymd day_iso = Some d -> valid_date d ->
  compute_for_meeting strptime_ymd eastern_1430_utc day_iso df_day = Some rec ->
  price_pre rec = Some p_pre -> price_post rec = Some p_post ->
  exists delta target,
    delta_implied_bps rec = Some delta /\
    target_surprise_bps rec = Some target /\
    (delta == (p_pre - p_post) * 100)%Q /\
    (0 <= delta -> delta <= target)%Q /\
    (delta <= 0 -> target <= delta)%Q.
Proof.
  intros Hd Hv Hrec Hpre Hpost.
  destruct (compute_for_meeting_total strptime_ymd eastern_1430_utc
              day_iso df_day d Hd Hv)
    as (pri & alt & D & _ & _ & HD & Hday & Heq).
  rewrite Heq in Hrec. clear Heq.
  remember (first_symbol df_day (eastern_1430_utc d) [pri; alt]) as r eqn:Hr.
  clear Hr. injection Hrec as <-.
  destruct r as [[[s p] q]|]; cbn in *; [|discriminate].
  injection Hpre as ->. injection Hpost as ->.
  destruct (Z.ltb_spec 0 (D - day d + 1)) as [_|Hneg]; [|lia].
  destruct (scaling_ratio_bounds D (D - day d + 1) ltac:(lia)) as [Hsf _].
  set (sf := (inject_Z D / inject_Z (D - day d + 1))%Q) in *.
  set (delta := ((100 - p_post - (100 - p_pre)) * 100)%Q).
  exists delta, (delta * sf)%Q. cbn.
  split; [reflexivity|]. split; [reflexivity|]. split; [unfold delta; ring|].
  split; intros Hdelta.
  - apply (Qscale_up delta sf Hsf Hdelta).
  - apply (Qscale_down delta sf Hsf Hdelta).
Qed.

End RecordFacts.

Lemma last_price_in_window_sound (s : list (Z * Q)) (a b : Z) (p : Q) :
  ZqSurprise.last_price_in_window s a b = Some p ->
  exists k, (k, p) ∈ s /\ a <= k <= b.
Proof.
  unfold ZqSurprise.last_price_in_window, Pandas.iloc_last.
  destruct (last (Pandas.loc_between a b s)) as [[k q]|] eqn:Hlast; [|discriminate].
  intros [= <-]. exists k. apply last_Some_elem_of in Hlast.
  apply loc_between_elem in Hlast. exact Hlast.
Qed.

Lemma symbol_series_elem (df_day : list Tick) (sym : string) (k : Z) (p : Q) :
  (k, p) ∈ Spec.symbol_series df_day sym ->
  exists tk, tk ∈ df_day /\ symbol tk = sym /\ ts_event tk = k /\ price tk = p.
Proof.
  unfold Spec.symbol_series. intros Hin.
  apply (proj1 (sort_values_elem _ _)) in Hin.
  apply list_elem_of_fmap in Hin as (tk & [= -> ->] & Hin).
  apply list_elem_of_In, filter_In in Hin as [Hin Hs].
  exists tk. repeat split; [now apply list_elem_of_In|now apply String.eqb_eq].
Qed.

Lemma first_symbol_pair (df_day : list Tick) (t0 : Z) (pri alt s : string) (p q : Q) :
  ZqSurprise.first_symbol df_day t0 [pri; alt] = Some (s, p, q) ->
  (s = pri \/ s = alt) /\
  Spec.pre_price df_day t0 s = Some p /\ Spec.post_price df_day t0 s = Some q.
Proof.
  cbn [ZqSurprise.first_symbol]. rewrite !try_symbol_spec.
  destruct (Spec.pre_price df_day t0 pri) as [a|] eqn:Ha,
           (Spec.post_price df_day t0 pri) as [b|] eqn:Hb;
    try (intros [= <- <- <-]; now auto);
    destruct (Spec.pre_price df_day t0 alt) as [a'|] eqn:Ha',
             (Spec.post_price df_day t0 alt) as [b'|] eqn:Hb';
    intros [= <- <- <-] || discriminate; auto.
Qed.

Lemma filter_filter {A} (f g : A -> bool) (l : list A) :
  List.filter f (List.filter g l) = List.filter (fun x => g x && f x) l.
Proof.
  induction l as [|a l IH]; [reflexivity|]. simpl.
  destruct (g a); simpl; [destruct (f a)|]; now rewrite ?IH.
Qed.

Lemma loc_between_pairs (a b : Z) (l : list Tick) :
  Pandas.loc_between a b ((fun tk => (ts_event tk, price tk)) <$> l)
  = (fun tk => (ts_event tk, price tk))
      <$> List.filter (fun tk => (a <=? ts_event tk) && (ts_event tk <=? b)) l.
Proof.
  unfold Pandas.loc_between. induction l as [|tk l IH]; [reflexivity|].
  rewrite fmap_cons. simpl.
  destruct ((a <=? ts_event tk) && (ts_event tk <=? b)); simpl; [f_equal|];
    exact IH.
Qed.

Lemma sorted_ticks_pairs (l : list Tick) :
  StronglySorted (fun x y => ts_event x <= ts_event y) l ->
  StronglySorted Pandas.key_le ((fun tk => (ts_event tk, price tk)) <$> l).
Proof. apply StronglySorted_fmap. intros x y Hxy. exact Hxy. Qed.

Lemma filter_sorted_ticks (f : Tick -> bool) (l : list Tick) :
  StronglySorted (fun x y => ts_event x <= ts_event y) l ->
  StronglySorted (fun x y => ts_event x <= ts_event y) (List.filter f l).
Proof.
  induction 1 as [|a l Hl IH Hall]; simpl; [constructor|].
  destruct (f a); [|exact IH]. constructor; [exact IH|].
  clear IH Hl. induction Hall as [|b l Hb _ IH]; simpl; [constructor|].
  destruct (f b); [constructor; assumption|assumption].
Qed.

(** The prices a window lookup sees, on ticks sorted by time. *)
Lemma window_price_sorted (df_day : list Tick) (sym : string) (a b : Z) :
  StronglySorted (fun x y => ts_event x <= ts_event y) df_day ->
  ZqSurprise.last_price_in_window (Spec.symbol_series df_day sym) a b
  = price <$> last (List.filter
                      (fun tk => String.eqb (symbol tk) sym
                                 && ((a <=? ts_event tk) && (ts_event tk <=? b)))
                      df_day).
Proof.
  intros Hs. unfold ZqSurprise.last_price_in_window, Spec.symbol_series.
  rewrite sort_values_of_sorted
    by (apply sorted_ticks_pairs, filter_sorted_ticks, Hs).
  rewrite loc_between_pairs, filter_filter.
  unfold Pandas.iloc_last. rewrite fmap_last.
  now destruct (last _).
Qed.

Section RecordSources.
Import Calendar ZqSurprise.
Variable strptime_ymd : string -> option date.
Variable eastern_1430_utc : date -> Z.

(** X13.  The record never makes a price up: the symbol used is one of the
    two candidates, price_pre is the price of a tick of that symbol whose
    event time lies between 10 minutes and 1 millisecond before the anchor,
    and price_post is the price of a tick of that symbol between the anchor
    and 10 minutes after it. *)
Theorem surprise_prices_from_ticks day_iso df_day d rec sym p_pre p_post :
  strptime_ymd day_iso = Some d -> valid_date d ->
  compute_for_meeting strptime_ymd eastern_1430_utc day_iso df_day = Some rec ->
  symbol_used rec = Some sym ->
  price_pre rec = Some p_pre -> price_post rec = Some p_post ->
  let t0 := eastern_1430_utc d in
  (sym = primary_symbol rec \/ sym = fallback_symbol rec) /\
  (exists tk, tk ∈ df_day /\ symbol tk = sym /\ price tk = p_pre /\
              t0 - 600 * 1000000000 <= ts_event tk <= t0 - 1000000) /\
  (exists tk, tk ∈ df_day /\ symbol tk = sym /\ price tk = p_post /\
              t0 <= ts_event tk <= t0 + 600 * 1000000000).
Proof.
  intros Hd Hv Hrec Hsym Hpre Hpost t0.
  destruct (compute_for_meeting_total strptime_ymd eastern_1430_utc
              day_iso df_day d Hd Hv)
    as (pri & alt & D & _ & _ & _ & _ & Heq).
  rewrite Heq in Hrec. clear Heq.
  remember (first_symbol df_day (eastern_1430_utc d) [pri; alt]) as r eqn:Hr.
  injection Hrec as <-.
  destruct r as [[[s p] q]|]; cbn in *; [|discriminate].
  injection Hsym as ->. injection Hpre as ->. injection Hpost as ->.
  symmetry in Hr. apply first_symbol_pair in Hr as (Hcand & Hp & Hq).
  split; [exact Hcand|]. split.
  - apply last_price_in_window_sound in Hp as (k & Hin & Hk).
    apply symbol_series_elem in Hin as (tk & Htk & Hs & Hts & Hpr).
    exists tk. subst k. unfold seconds, milliseconds, PRE_SEC in Hk.
    repeat split; try assumption; fold t0 in Hk; lia.
  - apply last_price_in_window_sound in Hq as (k & Hin & Hk).
    apply symbol_series_elem in Hin as (tk & Htk & Hs & Hts & Hpr).
    exists tk. subst k. unfold seconds, POST_SEC in Hk.
    repeat split; try assumption; fold t0 in Hk; lia.
Qed.

(** X14.  On ticks sorted by event time, as [read_ticks] returns them, the
    record depends only on the ticks inside the two windows: removing any
    ticks outside both windows (earlier, later, or in the last millisecond
    before the anchor) leaves the record unchanged. *)
Theorem surprise_ignores_ticks_outside_windows day_iso df_day (keep : Tick -> bool) :
  StronglySorted (fun x y => ts_event x <= ts_event y) df_day ->
  (forall d tk, strptime_ymd day_iso = Some d -> tk ∈ df_day ->
     let t0 := eastern_1430_utc d in
     t0 - 600 * 1000000000 <= ts_event tk <= t0 - 1000000 \/
     t0 <= ts_event tk <= t0 + 600 * 1000000000 ->
     keep tk = true) ->
  compute_for_meeting strptime_ymd eastern_1430_utc day_iso (List.filter keep df_day)
  = compute_for_meeting strptime_ymd eastern_1430_utc day_iso df_day.
Proof.
  intros Hs Hkeep. unfold compute_for_meeting, t0_utc_on_meeting_day.
  destruct (strptime_ymd day_iso) as [d|] eqn:Hd; [|reflexivity].
  cbn [fmap option_fmap option_map mbind option_bind].
  destruct (zq_symbol_for_meeting d) as [pri|]; [|reflexivity].
  cbn [mbind option_bind].
  destruct (zq_next_month_symbol d) as [alt|]; [|reflexivity].
  cbn [mbind option_bind].
  destruct (monthrange_days (year d) (month d)) as [D|]; [|reflexivity].
  cbn [mbind option_bind]. do 2 f_equal.
  assert (Hwin : forall sym a b,
             (eastern_1430_utc d - 600 * 1000000000 <= a /\
              b <= eastern_1430_utc d - 1000000) \/
             (eastern_1430_utc d <= a /\ b <= eastern_1430_utc d + 600 * 1000000000) ->
             last_price_in_window (Spec.symbol_series (List.filter keep df_day) sym) a b
             = last_price_in_window (Spec.symbol_series df_day sym) a b).
  { intros sym a b Hab.
    rewrite !window_price_sorted by (try apply filter_sorted_ticks; exact Hs).
    rewrite filter_filter. do 2 f_equal. apply filter_ext_in.
    intros tk Htk. apply list_elem_of_In in Htk.
    destruct (String.eqb (symbol tk) sym); simpl; [|apply andb_false_r].
    destruct ((a <=? ts_event tk) && (ts_event tk <=? b)) eqn:Hw;
      [|apply andb_false_r].
    apply andb_true_iff in Hw as [Ha Hb]. apply Z.leb_le in Ha, Hb.
    rewrite (Hkeep d tk eq_refl Htk); [reflexivity|]. simpl. lia. }
  assert (Htry : forall sym,
             try_symbol (List.filter keep df_day) (eastern_1430_utc d) sym
             = try_symbol df_day (eastern_1430_utc d) sym).
  { intros sym. rewrite !try_symbol_spec. unfold Spec.pre_price, Spec.post_price.
    rewrite !Hwin; [reflexivity| |];
      unfold seconds, milliseconds, PRE_SEC, POST_SEC; lia. }
  cbn [first_symbol]. now rewrite !Htry.
Qed.

End RecordSources.

Lemma scaling_factor_bounds_witness :
  28 <= ZqSurprise.days_in_month Scenario.primary_record <= 31 /\
  1 <= ZqSurprise.days_remaining_after_announcement Scenario.primary_record
    <= ZqSurprise.days_in_month Scenario.primary_record /\
  exists sf, ZqSurprise.scaling_factor Scenario.primary_record = Some sf /\
             (1 <= sf)%Q /\
             (sf <= inject_Z (ZqSurprise.days_in_month Scenario.primary_record))%Q.
Proof.
  exact (scaling_factor_bounds Scenario.strptime_ymd Scenario.eastern_1430_utc
           "2023-11-01" Scenario.zq_primary_day Scenario.nov_2023
           Scenario.primary_record eq_refl nov_2023_valid primary_record_computed).
Defined.

Lemma surprise_sign_and_size_witness :
  exists delta target,
    ZqSurprise.delta_implied_bps Scenario.primary_record = Some delta /\
    ZqSurprise.target_surprise_bps Scenario.primary_record = Some target /\
    (delta == (94.67 - 94.66) * 100)%Q /\
    (0 <= delta -> delta <= target)%Q /\
    (delta <= 0 -> target <= delta)%Q.
Proof.
  exact (surprise_sign_and_size Scenario.strptime_ymd Scenario.eastern_1430_utc
           "2023-11-01" Scenario.zq_primary_day Scenario.nov_2023
           Scenario.primary_record 94.67%Q 94.66%Q
           eq_refl nov_2023_valid primary_record_computed eq_refl eq_refl).
Defined.

Lemma surprise_prices_from_ticks_witness :
  exists tk, tk ∈ Scenario.zq_primary_day /\ symbol tk = "ZQX3"%string /\
             price tk = 94.67%Q /\
             Scenario.t0_nov - 600 * 1000000000 <= ts_event tk
               <= Scenario.t0_nov - 1000000.
Proof.
  exact (proj1 (proj2
    (surprise_prices_from_ticks Scenario.strptime_ymd Scenario.eastern_1430_utc
       "2023-11-01" Scenario.zq_primary_day Scenario.nov_2023
       Scenario.primary_record "ZQX3" 94.67%Q 94.66%Q
       eq_refl nov_2023_valid primary_record_computed eq_refl eq_refl eq_refl))).
Defined.

Lemma surprise_ignores_ticks_outside_windows_witness :
  ZqSurprise.compute_for_meeting Scenario.strptime_ymd Scenario.eastern_1430_utc
    "2023-11-01"
    (List.filter (fun tk => Scenario.t0_nov - 600 * 1000000000 <=? ts_event tk)
       Scenario.zq_fallback_day)
  = ZqSurprise.compute_for_meeting Scenario.strptime_ymd Scenario.eastern_1430_utc
      "2023-11-01" Scenario.zq_fallback_day.
Proof.
  apply surprise_ignores_ticks_outside_windows.
  - unfold Scenario.zq_fallback_day. repeat constructor; simpl;
      unfold Scenario.t0_nov, Scenario.eastern_1430_utc; lia.
  - intros d tk _ _. unfold Scenario.eastern_1430_utc, Scenario.t0_nov.
    simpl. intros Hw. apply Z.leb_le. unfold Scenario.eastern_1430_utc. lia.
Defined.

(** ** The batch over the meetings *)

Lemma NoDup_list_filter {A} (f : A -> bool) (l : list A) :
  NoDup l -> NoDup (List.filter f l).
Proof.
  induction 1 as [|a l Ha Hl IH]; simpl; [constructor|].
  destruct (f a); [|exact IH]. constructor; [|exact IH].
  intros Hin. apply list_elem_of_In, filter_In in Hin as [Hin _].
  apply Ha, list_elem_of_In, Hin.
Qed.

Lemma NoDup_sorted_set (ids : list string) : NoDup (HorizonSweep.sorted_set ids).
Proof.
  unfold HorizonSweep.sorted_set.
  assert (Hperm : forall l, foldr HorizonSweep.insert_str [] l ≡ₚ l).
  { induction l as [|x l IH]; [reflexivity|]. simpl.
    now rewrite insert_str_perm, IH. }
  rewrite Hperm. apply NoDup_remove_dups.
Qed.

Lemma fill_record_meeting_id day_iso t0 pri alt D d rec :
  ZqSurprise.meeting_id (ZqSurprise.fill_record day_iso t0 pri alt D d rec) = day_iso.
Proof. unfold ZqSurprise.fill_record. now destruct rec as [[[s p] q]|]. Qed.

Section BatchFacts.
Import Calendar ZqSurprise.
Variable strptime_ymd : string -> option date.
Variable eastern_1430_utc : date -> Z.
Variable zq_file : string -> option (list Tick).

Lemma meeting_rows_ids (days : list string) :
  (forall day, day ∈ days -> is_Some (zq_file day) ->
     exists d, strptime_ymd day = Some d /\ valid_date d) ->
  exists rows,
    ZqBatch.meeting_rows strptime_ymd eastern_1430_utc zq_file days = Some rows /\
    meeting_id <$> rows
    = List.filter (fun day => bool_decide (is_Some (zq_file day))) days.
Proof.
  induction days as [|day days IH]; intros Hok.
  - exists []. split; reflexivity.
  - destruct IH as (rows & Hrows & Hids).
    { intros day' Hin. apply Hok. now right. }
    cbn [ZqBatch.meeting_rows List.filter].
    destruct (zq_file day) as [raw|] eqn:Hf.
    + destruct (Hok day ltac:(left) ltac:(rewrite Hf; eauto)) as (d & Hd & Hv).
      destruct (compute_for_meeting_total strptime_ymd eastern_1430_utc day
                  (read_ticks raw) d Hd Hv)
        as (pri & alt & D & _ & _ & _ & _ & Heq).
      rewrite Heq, Hrows. cbn [mbind option_bind].
      eexists. split; [reflexivity|].
      rewrite fmap_cons, fill_record_meeting_id, Hids.
      rewrite bool_decide_eq_true_2 by eauto. reflexivity.
    + exists rows. split; [exact Hrows|].
      rewrite bool_decide_eq_false_2; [exact Hids|].
      intros [x Hx]. discriminate.
Qed.

(** X15.  When every meeting date that has a readable tick file is a
    calendar date, the batch returns one record per distinct date that has
    such a file, in the order of the sorted dates: a date without a file is
    skipped, a repeated or missing (NaN) date adds nothing, and each
    record carries its date as meeting id. *)
Theorem batch_one_record_per_meeting (meeting_date : list (option string)) :
  (forall day, Some day ∈ meeting_date -> is_Some (zq_file day) ->
     exists d, strptime_ymd day = Some d /\ valid_date d) ->
  exists rows,
    ZqBatch.main strptime_ymd eastern_1430_utc zq_file meeting_date = Some rows /\
    NoDup (meeting_id <$> rows) /\
    forall day, day ∈ meeting_id <$> rows <->
                Some day ∈ meeting_date /\ is_Some (zq_file day).
Proof.
  intros Hok. unfold ZqBatch.main.
  set (days := omap (M := list) (fun c : option string => c) meeting_date).
  assert (Hdays : forall day, day ∈ days <-> Some day ∈ meeting_date).
  { intros day. unfold days. rewrite list_elem_of_omap. split.
    - intros (x & Hx & ->). exact Hx.
    - intros Hx. eauto. }
  destruct (meeting_rows_ids (HorizonSweep.sorted_set days)) as (rows & Hrows & Hids).
  { intros day Hin. apply Hok, Hdays, elem_of_sorted_set, Hin. }
  exists rows. split; [exact Hrows|]. rewrite Hids. split.
  - apply NoDup_list_filter, NoDup_sorted_set.
  - intros day. rewrite list_elem_of_In, filter_In, <- list_elem_of_In.
    rewrite elem_of_sorted_set, Hdays, bool_decide_eq_true. reflexivity.
Qed.

(** X16.  The run is ended by the first meeting date that has a readable
    file but is not a date [strptime] accepts: the exception of
    [compute_for_meeting] is not caught, unlike a failure to read the
    file. *)
Theorem batch_stops_on_bad_date (days : list string) (day : string) (raw : list Tick) :
  day ∈ days -> zq_file day = Some raw -> strptime_ymd day = None ->
  ZqBatch.meeting_rows strptime_ymd eastern_1430_utc zq_file days = None.
Proof.
  intros Hin Hf Hbad. induction days as [|x days IH]; [inversion Hin|].
  cbn [ZqBatch.meeting_rows].
  destruct (decide (x = day)) as [->|Hne].
  - rewrite Hf. unfold compute_for_meeting, t0_utc_on_meeting_day.
    rewrite Hbad. reflexivity.
  - apply elem_of_cons in Hin as [Heq|Hin]; [congruence|].
    specialize (IH Hin). destruct (zq_file x); [|exact IH].
    rewrite IH. now destruct (compute_for_meeting _ _ _ _).
Qed.

End BatchFacts.

Lemma batch_one_record_per_meeting_witness :
  exists rows,
    ZqBatch.main Scenario.strptime_ymd Scenario.eastern_1430_utc
      (fun day => if String.eqb day "2023-11-01" then Some Scenario.zq_primary_day
                  else None)
      [Some "2023-11-01"%string; None; Some "2023-12-13"%string;
       Some "2023-11-01"%string] = Some rows /\
    NoDup (ZqSurprise.meeting_id <$> rows) /\
    forall day, day ∈ ZqSurprise.meeting_id <$> rows <->
      Some day ∈ [Some "2023-11-01"%string; None; Some "2023-12-13"%string;
                  Some "2023-11-01"%string] /\
      is_Some (if String.eqb day "2023-11-01" then Some Scenario.zq_primary_day
               else None).
Proof.
  apply (batch_one_record_per_meeting Scenario.strptime_ymd
           Scenario.eastern_1430_utc
           (fun day => if String.eqb day "2023-11-01"
                       then Some Scenario.zq_primary_day else None)).
  intros day _ Hfile. exists Scenario.nov_2023.
  split; [|exact nov_2023_valid]. unfold Scenario.strptime_ymd.
  destruct (String.eqb day "2023-11-01"); [reflexivity|].
  destruct Hfile as [x Hx]. discriminate.
Defined.

Lemma batch_stops_on_bad_date_witness :
  ZqBatch.meeting_rows Scenario.strptime_ymd Scenario.eastern_1430_utc
    (fun _ => Some Scenario.zq_primary_day) ["2023-11-01"; "2023-13-01"]%string
  = None.
Proof.
  apply (batch_stops_on_bad_date Scenario.strptime_ymd Scenario.eastern_1430_utc
           (fun _ => Some Scenario.zq_primary_day)
           ["2023-11-01"; "2023-13-01"]%string "2023-13-01"%string
           Scenario.zq_primary_day);
    [right; left|reflexivity|reflexivity].
Defined.

(** ** Winsorisation, continued *)

Section WinsorizeMore.
Import Pandas.
Local Open Scope R_scope.
Implicit Types (s : list (option R)) (xs : list R) (sigma c x : R).

Lemma clip_cell_increasing (lower upper : option R) x y :
  x <= y -> clip_cell lower upper x <= clip_cell lower upper y.
Proof.
  intros Hxy. unfold clip_cell.
  assert (Hl : match lower with Some l => Rmax x l | None => x end
               <= match lower with Some l => Rmax y l | None => y end).
  { destruct lower as [l|]; [|exact Hxy]. apply Rle_max_compat_r, Hxy. }
  destruct upper as [u|]; [|exact Hl]. apply Rle_min_compat_r, Hl.
Qed.

Lemma clip_lookup (lower upper : option R) s i :
  exists l u, forall o, s !! i = Some o ->
    clip lower upper s !! i = Some (clip_cell l u <$> o).
Proof.
  unfold clip.
  destruct (match lower, upper with
            | Some l, Some u => (Some (Rmin l u), Some (Rmax l u))
            | _, _ => (lower, upper)
            end) as [l u].
  exists l, u. intros o Ho. now rewrite list_lookup_fmap, Ho.
Qed.

Lemma clip_length (lower upper : option R) s :
  length (clip lower upper s) = length s.
Proof. unfold clip. destruct lower, upper; cbn; apply length_fmap. Qed.

Lemma mean_constant xs c :
  xs <> [] -> Forall (fun x => x = c) xs -> mean xs = c.
Proof.
  intros Hne Hall. unfold mean.
  assert (Hsum : Rsum xs = INR (length xs) * c).
  { clear Hne. induction Hall as [|x xs -> _ IH]; [simpl; ring|].
    cbn [Rsum foldr length]. rewrite S_INR. unfold Rsum in IH. rewrite IH. ring. }
  rewrite Hsum. pose proof (INR_length_pos xs Hne). field. lra.
Qed.

Lemma sq_dev_constant xs c :
  xs <> [] -> Forall (fun x => x = c) xs -> sq_dev xs = 0.
Proof.
  intros Hne Hall. unfold sq_dev. rewrite (mean_constant xs c Hne Hall).
  clear Hne. induction Hall as [|x xs -> _ IH]; [reflexivity|].
  rewrite fmap_cons. cbn [Rsum foldr]. unfold Rsum in IH. rewrite IH. ring.
Qed.

Lemma dropna_elem s x : x ∈ dropna s <-> Some x ∈ s.
Proof.
  unfold dropna. rewrite list_elem_of_omap. split.
  - intros (o & Ho & ->). exact Ho.
  - intros Hx. eauto.
Qed.

(** X17.  Winsorisation keeps the shape of a column and the order of its
    values: the result has the same length, NaN cells stay NaN and no
    other cell becomes NaN, and of two values the smaller one never ends
    above the larger one. *)
Theorem winsorize_keeps_shape_and_order s sigma :
  length (HorizonSweep.winsorize s sigma) = length s /\
  (forall i, HorizonSweep.winsorize s sigma !! i = Some None <-> s !! i = Some None) /\
  (forall i j x y, s !! i = Some (Some x) -> s !! j = Some (Some y) -> x <= y ->
     exists x' y', HorizonSweep.winsorize s sigma !! i = Some (Some x') /\
                   HorizonSweep.winsorize s sigma !! j = Some (Some y') /\
                   x' <= y').
Proof.
  unfold HorizonSweep.winsorize.
  set (cap := Rmult sigma <$> std_pop s).
  split; [|split].
  - apply clip_length.
  - intros i. destruct (clip_lookup (Ropp <$> cap) cap s i) as (l & u & Hlu).
    destruct (s !! i) as [o|] eqn:Ho.
    + rewrite (Hlu o eq_refl). destruct o; simpl; split; congruence.
    + split; [|discriminate]. intros Hc. apply lookup_lt_Some in Hc.
      apply lookup_ge_None in Ho.
      pose proof (clip_length (Ropp <$> cap) cap s). lia.
  - intros i j x y Hi Hj Hxy. unfold clip.
    destruct (match Ropp <$> cap, cap with
              | Some l, Some u => (Some (Rmin l u), Some (Rmax l u))
              | _, _ => (Ropp <$> cap, cap)
              end) as [l u].
    exists (clip_cell l u x), (clip_cell l u y).
    rewrite !list_lookup_fmap, Hi, Hj. simpl.
    repeat split. apply clip_cell_increasing, Hxy.
Qed.

(** X18.  A column whose values are all equal has deviation 0, so the cap
    is 0 and every value is replaced by 0, whatever [sigma] is and however
    far from 0 the common value lies; this covers a column with a single
    value. *)
Theorem winsorize_constant_column s c sigma :
  Some c ∈ s -> (forall x, Some x ∈ s -> x = c) ->
  HorizonSweep.winsorize s sigma = (fun o : option R => (fun _ => 0) <$> o) <$> s.
Proof.
  intros Hin Hall.
  assert (Hne : dropna s <> []).
  { intros Hnil. apply dropna_elem in Hin. rewrite Hnil in Hin. inversion Hin. }
  assert (Hstd : std_pop s = Some 0).
  { apply std_pop_of_square; [exact Hne|lra|].
    rewrite (sq_dev_constant (dropna s) c Hne).
    - unfold Rdiv. ring.
    - apply Forall_forall. intros x Hx. apply Hall, dropna_elem, Hx. }
  unfold HorizonSweep.winsorize. rewrite Hstd. simpl.
  rewrite Rmult_0_r, clip_symmetric by lra.
  apply list_fmap_ext. intros _ [x|] _; [|reflexivity]. simpl. f_equal.
  pose proof (cap_at_bounds 0 x (Rle_refl 0)). lra.
Qed.

Lemma winsorize_constant_column_witness :
  HorizonSweep.winsorize [Some 5; None; Some 5] 3 = [Some 0; None; Some 0].
Proof.
  apply (winsorize_constant_column [Some 5; None; Some 5] 5 3).
  - left.
  - intros x Hx. rewrite !elem_of_cons in Hx.
    destruct Hx as [Hx|[Hx|[Hx|Hx]]]; try congruence. inversion Hx.
Defined.

(** X19.  The script with the ZQ control caps with the sample standard
    deviation (ddof = 1): a column with a single value has no such
    deviation and is returned unchanged, where the other scripts would
    turn the value into 0; with two or more values the sample deviation is
    at least the population deviation, so its cap is at least as wide. *)
Theorem winsor_sample_deviation s sigma :
  (forall x, dropna s = [x] -> RegWithZq.winsor s sigma = s) /\
  (forall v', RegWithZq.std_sample s = Some v' ->
     exists v, std_pop s = Some v /\ v <= v').
Proof.
  split.
  - intros x Hx. unfold RegWithZq.winsor, RegWithZq.std_sample.
    rewrite Hx. apply clip_unbounded.
  - unfold RegWithZq.std_sample, std_pop.
    destruct (dropna s) as [|x [|y xs]] eqn:Hxs; try discriminate.
    assert (Hn : 2 <= INR (length (x :: y :: xs))).
    { cbn [length]. rewrite !S_INR. pose proof (pos_INR (length xs)). lra. }
    revert Hn. generalize (x :: y :: xs). intros l Hn v' [= <-].
    eexists. split; [reflexivity|].
    pose proof (sq_dev_nonneg l) as HS.
    apply sqrt_le_1_alt. unfold Rdiv.
    apply Rmult_le_compat_l; [exact HS|].
    apply Rinv_le_contravar; lra.
Qed.

End WinsorizeMore.

(** ** Where the tick files are written and read *)

(** X20.  The scripts agree on the place of a tick file: the path
    [read_ticks] of build_zq_surprise.py opens for a day is the object the
    ZQ downloader writes for that day, the general download script would
    give the same key for the parent symbol ZQ.FUT, and the object it
    writes for ES.FUT or ZT.FUT lies directly in the folder that
    [build_price_cache] globs for ES or ZT, under a name ending in
    .parquet. *)
Theorem tick_paths_agree (day : string) :
  Keys.read_ticks_path day = Keys.s3_uri (Keys.zq_s3_key day) /\
  Keys.pull_s3_key "ZQ.FUT" day = Keys.zq_s3_key day /\
  forall sym, sym ∈ HorizonSweep.ASSETS ->
    Keys.s3_uri (Keys.pull_s3_key (sym +:+ ".FUT") day)
    = Keys.tick_folder sym day +:+ "/" +:+ day +:+ "_" +:+ sym +:+ "_trades.parquet".
Proof.
  split; [reflexivity|]. split; [reflexivity|].
  intros sym Hsym. unfold HorizonSweep.ASSETS in Hsym.
  rewrite !elem_of_cons in Hsym.
  destruct Hsym as [->|[->|Hsym]]; [reflexivity|reflexivity|inversion Hsym].
Qed.

(** ** Emotion indicators *)



(** X22.  The deltas depend on price differences only: shifting every
    price of a series by the same amount leaves every delta of the rows
    that use it unchanged (up to equality of rationals). *)
Theorem forward_delta_shift_invariant (c c' : HorizonSweep.cache_t)
    (r : HorizonSweep.ReturnRow) (series : list (Z * Q)) (k : Q) (h : Z) :
  c !! (HorizonSweep.meeting_id r, HorizonSweep.sym r) = Some series ->
  c' !! (HorizonSweep.meeting_id r, HorizonSweep.sym r)
    = Some (prod_map (fun t : Z => t) (fun p => (p + k)%Q) <$> series) ->
  oQeq (HorizonSweep.forward_delta c' r h) (HorizonSweep.forward_delta c r h).
Proof.
  intros Hc Hc'. unfold HorizonSweep.forward_delta. rewrite Hc, Hc'.
  destruct (HorizonSweep.timestamp_utc r) as [ts|]; [|exact I].
  rewrite !asof_fmap.
  destruct (HorizonSweep.asof series (HorizonSweep.sec_of ts)) as [p0|]; [|exact I].
  destruct (HorizonSweep.asof series (HorizonSweep.sec_of ts + h)) as [p1|];
    simpl; ring.
Qed.

Lemma forward_delta_shift_invariant_witness :
  oQeq (HorizonSweep.forward_delta
          {[ ("2023-11-01", "ZT")%string :=
               prod_map (fun t : Z => t) (fun p => (p + 1)%Q) <$> Scenario.day_series ]}
          Scenario.day_row 3600)
       (HorizonSweep.forward_delta Scenario.day_cache Scenario.day_row 3600).
Proof.
  exact (forward_delta_shift_invariant Scenario.day_cache
           {[ ("2023-11-01", "ZT")%string :=
                prod_map (fun t : Z => t) (fun p => (p + 1)%Q) <$> Scenario.day_series ]}
           Scenario.day_row Scenario.day_series 1%Q 3600 eq_refl eq_refl).
Defined.

(** * The as-of lookup, the forward deltas and the ES scale *)

(** ** The as-of resolver and the window lookup *)

Section AsofFacts.
Import Pandas.
Context {V : Type}.
Implicit Types (s : Series V) (r : Z * V).

Lemma ordered_sorted s : ordered s -> StronglySorted key_le s.
Proof.
  induction s as [|a s IH]; intros H; [constructor|].
  apply ordered_cons_inv in H as [Hs Hall]. constructor; [apply IH, Hs|].
  eapply Forall_impl; [exact Hall|]. unfold key_le. simpl. intros; lia.
Qed.

Lemma filter_ordered (f : Z * V -> bool) s : ordered s -> ordered (List.filter f s).
Proof.
  induction s as [|a s IH]; intros H; [exact H|].
  apply ordered_cons_inv in H as [Hs Hall]. simpl.
  destruct (f a); [|apply IH, Hs].
  unfold ordered, index. rewrite fmap_cons. constructor; [apply IH, Hs|].
  rewrite Forall_fmap. apply Forall_filter_keep. exact Hall.
Qed.

Lemma filter_all_false {A} (f : A -> bool) (l : list A) :
  Forall (fun x => f x = false) l -> List.filter f l = [].
Proof.
  induction 1 as [|a l Ha _ IH]; simpl; [reflexivity|]. now rewrite Ha.
Qed.

(** The rows after row [i] lie beyond [t] when the next row does. *)
Lemma ordered_drop_gt s i t :
  ordered s -> (forall r', s !! S i = Some r' -> t < r'.1) ->
  Forall (fun x => t < x.1) (drop (S i) s).
Proof.
  intros Hord Hnext. apply Forall_lookup_2. intros j x Hj.
  rewrite lookup_drop in Hj.
  destruct (s !! S i) as [r'|] eqn:Hi'.
  - specialize (Hnext r' eq_refl). destruct j as [|j].
    + rewrite Nat.add_0_r, Hi' in Hj. injection Hj as <-. exact Hnext.
    + assert (r'.1 < x.1)
        by (eapply (ordered_lookup_lt s (S i) (S i + S j)); eauto; lia).
      lia.
  - apply lookup_ge_None in Hi'. apply lookup_lt_Some in Hj. lia.
Qed.

(** The mask of a window keeps row [i] last when the label of row [i] is
    in the window and the next row, if any, is beyond its end. *)
Lemma loc_between_at s i r a b :
  ordered s -> s !! i = Some r -> a <= r.1 <= b ->
  (forall r', s !! S i = Some r' -> b < r'.1) ->
  last (loc_between a b s) = Some r.
Proof.
  intros Hord Hi [Ha Hb] Hnext. unfold loc_between.
  rewrite <- (take_drop_middle s i r Hi), List.filter_app. simpl.
  rewrite (proj2 (Z.leb_le a r.1) Ha), (proj2 (Z.leb_le r.1 b) Hb). simpl.
  rewrite (filter_all_false _ (drop (S i) s)).
  - apply last_snoc.
  - eapply Forall_impl; [exact (ordered_drop_gt s i b Hord Hnext)|].
    simpl. intros x Hx. rewrite (proj2 (Z.leb_gt x.1 b) Hx). apply andb_false_r.
Qed.

End AsofFacts.

(** The window lookup of the surprise calculator is the as-of lookup at the
    end of the window on the rows at or after its start. *)
Lemma last_price_in_window_filter (s : list (Z * Q)) (a b : Z) :
  StronglySorted Pandas.key_le s ->
  ZqSurprise.last_price_in_window s a b
  = HorizonSweep.asof (List.filter (fun r => a <=? r.1) s) b.
Proof.
  intros Hs. unfold ZqSurprise.last_price_in_window, HorizonSweep.asof.
  rewrite loc_upto_filter by apply filter_sorted, Hs.
  rewrite filter_filter. reflexivity.
Qed.

(** On an ordered series the as-of lookup at or after the last label is the
    last price. *)
Lemma asof_from_last (s : list (Z * Q)) r t :
  Pandas.ordered s -> last s = Some r -> r.1 <= t -> HorizonSweep.asof s t = Some r.2.
Proof.
  intros Hord Hlast Hle. unfold HorizonSweep.asof, Pandas.iloc_last.
  rewrite loc_upto_all.
  - now rewrite Hlast.
  - eapply Forall_impl; [exact (sorted_last_max s r (ordered_sorted s Hord) Hlast)|].
    simpl. intros; lia.
Qed.

(** C1.  On a series whose labels t1 < t2 < ... < tn increase strictly, the
    as-of lookup [series.loc[:t].iloc[-1]] of [add_forward_returns] is
    unavailable when [t] is before the first label (or there is none), it
    is the last price when [t] is at or after the last label, and it is the
    price of row [i] when [t] lies between the label of row [i] and the
    label of row [i+1].  The window lookup [last_price_in_window] with the
    window [a .. t] is that same as-of lookup at [t] on the rows whose
    label is at least [a], which are ordered too: it is unavailable when no
    label lies in the window, and otherwise it is the price of the row with
    the largest label at most [t], whose label is at least [a]. *)
Theorem asof_resolution (s : list (Z * Q)) (t : Z) :
  Pandas.ordered s ->
  ((forall r, head s = Some r -> t < r.1) -> HorizonSweep.asof s t = None) /\
  (forall r, last s = Some r -> r.1 <= t -> HorizonSweep.asof s t = Some r.2) /\
  (forall i r r', s !! i = Some r -> s !! S i = Some r' -> r.1 <= t < r'.1 ->
     HorizonSweep.asof s t = Some r.2) /\
  (forall a,
     Pandas.ordered (List.filter (fun r => a <=? r.1) s) /\
     ZqSurprise.last_price_in_window s a t
     = HorizonSweep.asof (List.filter (fun r => a <=? r.1) s) t) /\
  (forall a, (forall r, r ∈ s -> ~ a <= r.1 <= t) ->
     ZqSurprise.last_price_in_window s a t = None) /\
  (forall a i r, s !! i = Some r -> a <= r.1 <= t ->
     (forall r', s !! S i = Some r' -> t < r'.1) ->
     ZqSurprise.last_price_in_window s a t = Some r.2).
Proof.
  intros Hord. split; [|split; [|split; [|split; [|split]]]].
  - intros Hhd. unfold HorizonSweep.asof, Pandas.iloc_last.
    pose proof (loc_upto_app [] s t (Forall_nil_2 _) Hhd) as Hnil.
    simpl in Hnil. rewrite Hnil. reflexivity.
  - intros r Hlast Hle. exact (asof_from_last s r t Hord Hlast Hle).
  - intros i r r' Hi Hi' [Hle Hlt]. unfold HorizonSweep.asof, Pandas.iloc_last.
    rewrite (loc_upto_at s i r t Hord Hi Hle).
    + rewrite (last_take_S _ _ _ Hi). reflexivity.
    + intros r'' Hr''. rewrite Hi' in Hr''. injection Hr'' as <-. exact Hlt.
  - intros a. split; [apply filter_ordered, Hord|].
    apply last_price_in_window_filter, ordered_sorted, Hord.
  - intros a Hnone. unfold ZqSurprise.last_price_in_window, Pandas.loc_between.
    rewrite filter_all_false; [reflexivity|].
    apply Forall_forall. intros r Hr. specialize (Hnone r Hr).
    destruct (Z.leb_spec a r.1), (Z.leb_spec r.1 t); simpl; try reflexivity. lia.
  - intros a i r Hi Hin Hnext. unfold ZqSurprise.last_price_in_window, Pandas.iloc_last.
    now rewrite (loc_between_at s i r a t Hord Hi Hin Hnext).
Qed.

Lemma asof_resolution_witness :
  Pandas.ordered [(1, 100%Q); (2, 99%Q); (3, 102%Q)] /\
  HorizonSweep.asof [(1, 100%Q); (2, 99%Q); (3, 102%Q)] 2 = Some 99%Q /\
  ZqSurprise.last_price_in_window [(1, 100%Q); (2, 99%Q); (3, 102%Q)] 2 2 = Some 99%Q /\
  HorizonSweep.asof [(1, 100%Q); (2, 99%Q); (3, 102%Q)] 10 = Some 102%Q /\
  ZqSurprise.last_price_in_window [(1, 100%Q); (2, 99%Q); (3, 102%Q)] 5 10 = None.
Proof.
  assert (Hord : Pandas.ordered [(1, 100%Q); (2, 99%Q); (3, 102%Q)]).
  { unfold Pandas.ordered. simpl. repeat constructor; lia. }
  split; [exact Hord|]. split; [|split; [|split]].
  - apply (proj1 (proj2 (proj2 (asof_resolution _ 2 Hord))) 1%nat (2, 99%Q) (3, 102%Q));
      [reflexivity|reflexivity|simpl; lia].
  - apply (proj2 (proj2 (proj2 (proj2 (proj2 (asof_resolution _ 2 Hord)))))
             2 1%nat (2, 99%Q)); [reflexivity|simpl; lia|].
    intros r' Hr'. injection Hr' as <-. simpl. lia.
  - apply (proj1 (proj2 (asof_resolution _ 10 Hord)) (3, 102%Q));
      [reflexivity|simpl; lia].
  - apply (proj1 (proj2 (proj2 (proj2 (proj2 (asof_resolution _ 10 Hord))))) 5).
    intros r Hr. rewrite !elem_of_cons, elem_of_nil in Hr.
    destruct Hr as [->|[->|[->|[]]]]; simpl; lia.
Defined.

(** ** The cells of the forward-return columns *)



(** ** The ES scale in the price cache *)

(** Every stored row of the ES series is a tick of the file with its price
    divided by 100. *)
Lemma tick_series_rows_es ticks k p :
  (k, p) ∈ HorizonSweep.tick_series "ES" ticks ->
  exists tk, tk ∈ ticks /\ k = ts_event tk / 1000000000 /\ p = (price tk / 100)%Q.
Proof.
  rewrite tick_series_es. intros Hin.
  apply list_elem_of_fmap in Hin as ([k' p'] & Heq & Hin).
  injection Heq as -> ->.
  apply tick_series_rows_raw in Hin as (tk & Htk & -> & ->); [|discriminate].
  exists tk. repeat split. exact Htk.
Qed.

(** C10.  In the cache built by [build_price_cache], for a meeting among
    the ids given: the entry of ES is the ES series of its tick file and
    the entry of ZT is the ZT series of its tick file.  A tick that is the
    first of its second in the file enters the ES series with its price
    divided by 100 and the ZT series with its price as it is, and the
    as-of price at that second is that stored price.  Conversely every row
    of the ES series is a tick with its price divided by 100 and every row
    of the ZT series is a tick with its price as it is.  The ES series is
    the series built from the same ticks without rescaling with every
    price divided by 100, and every asset other than ES gets exactly the
    unscaled series; hence every ES as-of price level is the raw level
    divided by 100 and every ES horizon delta is the raw delta divided by
    100. *)
Theorem es_prices_divided_by_100
    (tick_file : string -> string -> option (list Tick))
    (meeting_ids : list string) (m : string) (ticks : list Tick) :
  m ∈ meeting_ids ->
  let cache := HorizonSweep.build_price_cache tick_file meeting_ids in
  let sec := fun tk : Tick => ts_event tk / 1000000000 in
  let scale := fun p : Q => (p / 100)%Q in
  let raw := HorizonSweep.tick_series "ZT" ticks in
  let es := HorizonSweep.tick_series "ES" ticks in
  (tick_file "ES"%string m = Some ticks -> cache !! (m, "ES"%string) = Some es) /\
  (tick_file "ZT"%string m = Some ticks -> cache !! (m, "ZT"%string) = Some raw) /\
  (forall pre tk post, ticks = pre ++ tk :: post ->
     Forall (fun x => sec x <> sec tk) pre ->
     (sec tk, scale (price tk)) ∈ es /\
     (sec tk, price tk) ∈ raw /\
     HorizonSweep.asof es (sec tk) = Some (scale (price tk)) /\
     HorizonSweep.asof raw (sec tk) = Some (price tk)) /\
  (forall k p, (k, p) ∈ es ->
     exists tk, tk ∈ ticks /\ k = sec tk /\ p = scale (price tk)) /\
  (forall k p, (k, p) ∈ raw ->
     exists tk, tk ∈ ticks /\ k = sec tk /\ p = price tk) /\
  es = prod_map (fun k : Z => k) scale <$> raw /\
  (forall sym, sym <> "ES"%string -> HorizonSweep.tick_series sym ticks = raw) /\
  (forall t, HorizonSweep.asof es t = scale <$> HorizonSweep.asof raw t) /\
  (forall (c_es c_raw : HorizonSweep.cache_t) r h,
     c_es !! (HorizonSweep.meeting_id r, HorizonSweep.sym r) = Some es ->
     c_raw !! (HorizonSweep.meeting_id r, HorizonSweep.sym r) = Some raw ->
     oQeq (HorizonSweep.forward_delta c_es r h)
          (scale <$> HorizonSweep.forward_delta c_raw r h)).
Proof.
  intros Hm cache sec scale raw es.
  assert (Hes : es = prod_map (fun k : Z => k) scale <$> raw) by apply tick_series_es.
  split; [|split; [|split; [|split; [|split; [|split; [|split; [|split]]]]]]].
  - intros Hfile. unfold cache. rewrite build_price_cache_lookup, Hfile.
    rewrite decide_True; [reflexivity|]. split; [left|exact Hm].
  - intros Hfile. unfold cache. rewrite build_price_cache_lookup, Hfile.
    rewrite decide_True; [reflexivity|]. split; [right; left|exact Hm].
  - intros pre tk post -> Hpre.
    pose proof (tick_series_first_row_in "ES" pre tk post Hpre) as Hin_es.
    pose proof (tick_series_first_row_in "ZT" pre tk post Hpre) as Hin_raw.
    simpl in Hin_es, Hin_raw.
    split; [exact Hin_es|]. split; [exact Hin_raw|]. split.
    + apply asof_at_label; [apply tick_series_ordered|exact Hin_es].
    + apply asof_at_label; [apply tick_series_ordered|exact Hin_raw].
  - intros k p. apply tick_series_rows_es.
  - intros k p. apply tick_series_rows_raw. discriminate.
  - exact Hes.
  - intros sym Hsym. unfold raw, HorizonSweep.tick_series.
    rewrite (proj2 (String.eqb_neq sym "ES")) by exact Hsym. reflexivity.
  - intros t. rewrite Hes. apply asof_fmap.
  - intros c_es c_raw r h Hc_es Hc_raw. unfold HorizonSweep.forward_delta.
    rewrite Hc_es, Hc_raw. destruct (HorizonSweep.timestamp_utc r) as [ts|];
      [|exact I].
    rewrite Hes, !asof_fmap.
    destruct (HorizonSweep.asof raw (HorizonSweep.sec_of ts)) as [p0|]; [|exact I].
    destruct (HorizonSweep.asof raw (HorizonSweep.sec_of ts + h)) as [p1|];
      simpl; unfold scale; field.
Qed.

Lemma es_prices_divided_by_100_witness :
  "2023-11-01"%string ∈ ["2023-11-01"%string] /\
  HorizonSweep.build_price_cache Scenario.tick_store ["2023-11-01"%string]
    !! ("2023-11-01", "ES")%string
  = Some (HorizonSweep.tick_series "ES" Scenario.es_with_spread) /\
  (1, (4500 / 100)%Q) ∈ HorizonSweep.tick_series "ES" Scenario.es_with_spread /\
  HorizonSweep.asof (HorizonSweep.tick_series "ES" Scenario.es_with_spread) 1
  = Some (4500 / 100)%Q.
Proof.
  assert (Hm : "2023-11-01"%string ∈ ["2023-11-01"%string]) by apply list_elem_of_here.
  split; [exact Hm|].
  destruct (es_prices_divided_by_100 Scenario.tick_store ["2023-11-01"%string]
              "2023-11-01" Scenario.es_with_spread Hm)
    as (Hentry & _ & Hin & _).
  split; [exact (Hentry eq_refl)|].
  destruct (Hin [] (mkTick 1000000000 "ESZ3" 4500)
              [mkTick 2000000000 "ESZ3-ESH4" 55.25] eq_refl (Forall_nil_2 _))
    as (Hrow & _ & Hasof & _).
  split; [exact Hrow|exact Hasof].
Defined.
